(** * The assistant component: chat, run polling and map tool calls

    A shallow embedding of [src/components/assistant/assistant-component.tsx].

    The component is a React function component.  Its state cells become the
    record [State]; every callback is a function of the render snapshot it
    closes over (its [env]) and runs in a small state-and-exception monad
    over the [World]: the component state together with the requests in
    flight, the pending timers and the error log.  The browser event loop is
    the executable step function [step] on [Event]s.

    How React is read:
    - a callback sees the state of the render that created it, not the
      current one; a callback memoised with [useCallback(f, [])] is the one
      of the first render, one memoised on [currentRun] is the one of the
      last render in which [currentRun] had changed;
    - the state updates made by one callback are applied together, and one
      render follows (automatic batching);
    - an effect runs again when one of its dependencies has changed; a run
      that is stored always comes out of a fresh response, so every call of
      [setCurrentRun] changes [pollRunStatus] and runs its effect again.

    [Logger.debug] only writes to the console and is left out, except where
    evaluating its argument can raise. *)

From Stdlib Require Import ZArith List String Bool Lia.
From Stdlib Require Import Sorting.Sorted Sorting.Permutation.
Import ListNotations.
Open Scope string_scope.
Open Scope list_scope.
Set Warnings "-register-all".

(** ** JavaScript values *)

Module Js.

(** The values [JSON.parse] can produce, and [undefined], which reading a
    missing property produces.  A number is kept as the decimal literal it
    was written as, [mantissa * 10 ^ exponent]; no arithmetic is done on
    it. *)
Inductive Value : Type :=
| VUndefined
| VNull
| VBool (b : bool)
| VNumber (mantissa exponent : Z)
| VString (s : string)
| VArray (items : list Value)
| VObject (fields : list (string * Value)).

(** What a promise can be rejected with. *)
Inductive Error : Type :=
| SyntaxError                 (* JSON.parse on a text that is not JSON *)
| TypeError                   (* a property read on null or undefined, or a
                                 value that cannot be converted to a string *)
| AxiosError (message : string).   (* the request failed *)

(** A string that is handed to [JSON.parse], represented by what
    [JSON.parse] makes of it. *)
Inductive JsonText : Type :=
| NotJson
| JsonOf (v : Value).

Definition JSON_parse (text : JsonText) : Error + Value :=
  match text with
  | NotJson => inl SyntaxError
  | JsonOf v => inr v
  end.

Fixpoint lookup (key : string) (fields : list (string * Value)) : Value :=
  match fields with
  | [] => VUndefined
  | (k, v) :: rest => if String.eqb key k then v else lookup key rest
  end.

(** [v.key] for the keys the component reads ([zoomLevel], [latitude],
    [longitude], [markers], [centerLatitude], [centerLongitude]); none of
    them is a built-in property of a primitive or of an array. *)
Definition get (v : Value) (key : string) : Error + Value :=
  match v with
  | VUndefined | VNull => inl TypeError
  | VObject fields => inr (lookup key fields)
  | VBool _ | VNumber _ _ | VString _ | VArray _ => inr VUndefined
  end.

(** Whether a property read on [v] raises. *)
Definition nullish (v : Value) : bool :=
  match v with
  | VUndefined | VNull => true
  | _ => false
  end.

(** What [v.key] evaluates to when it does not raise. *)
Definition field (v : Value) (key : string) : Value :=
  match v with
  | VObject fields => lookup key fields
  | _ => VUndefined
  end.

(** Whether the object has a property of its own under [key]. *)
Definition own (key : string) (fields : list (string * Value)) : bool :=
  existsb (fun kv => String.eqb key (fst kv)) fields.

(** Whether the conversion of [v] to a string returns.  A primitive always
    converts.  An object is converted by its [toString] method: a parsed
    object that has a [toString] property of its own hides the inherited
    method behind a value that cannot be called, and its [valueOf], own or
    inherited, gives no primitive either, so the conversion raises.  An
    array is converted by joining the conversions of its items. *)
Fixpoint printable (v : Value) : bool :=
  match v with
  | VArray items => forallb printable items
  | VObject fields => negb (own "toString" fields)
  | _ => true
  end.

(** [`${v}`] in a template whose string only goes to the debug log: what is
    kept of it is whether it raises. *)
Definition ToString (v : Value) : Error + unit :=
  if printable v then inr tt else inl TypeError.

(** [v.length].  The length of a string is a number, here the number of its
    characters; which number it is plays no part. *)
Definition get_length (v : Value) : Error + Value :=
  match v with
  | VUndefined | VNull => inl TypeError
  | VArray items => inr (VNumber (Z.of_nat (List.length items)) 0)
  | VString s => inr (VNumber (Z.of_nat (String.length s)) 0)
  | VObject fields => inr (lookup "length" fields)
  | VBool _ | VNumber _ _ => inr VUndefined
  end.

(** What [v.length] evaluates to when it does not raise. *)
Definition length_of (v : Value) : Value :=
  match get_length v with
  | inr len => len
  | inl _ => VUndefined
  end.

End Js.
Import Js.

(** ** Data received from and sent to the API *)

Record FunctionCall : Type := {
  name : string;
  arguments : JsonText
}.

Record ToolCall : Type := {
  call_id : string;
  type : string;
  function : FunctionCall
}.

Record SubmitToolOutputs : Type := { tool_calls : list ToolCall }.

Record RequiredAction : Type := { submit_tool_outputs : SubmitToolOutputs }.

Record Run : Type := {
  run_id : string;
  status : string;
  required_action : option RequiredAction
}.

Record ToolOutput : Type := {
  tool_call_id : string;
  output : string
}.

(** Of a message the component reads [id] and [created_at]; [content] stands
    for every other field. *)
Record Message : Type := {
  msg_id : string;
  created_at : Z;
  content : string
}.

Record Center : Type := { lat : Value; lng : Value }.

(** The imports from [@objects] that are called: [generateAnnotation]. *)
Class Objects : Type := {
  generateAnnotation : string -> string -> Message
}.

(** ** Component state *)

Record State : Type := {
  mapCenter : Center;
  pointsOfInterest : Value;
  mapZoomLevel : Value;
  userPrompt : string;
  currentRun : option Run;
  messages : list Message;
  assistantWriting : bool;
  loading : bool
}.

Definition initialState : State := {|
  mapCenter := {| lat := VNumber 377749 (-4); lng := VNumber (-1224194) (-4) |};
  pointsOfInterest := VArray [];
  mapZoomLevel := VNumber 12 0;
  userPrompt := "";
  currentRun := None;
  messages := [];
  assistantWriting := false;
  loading := true
|}.

Definition with_mapCenter (c : Center) (s : State) : State :=
  {| mapCenter := c; pointsOfInterest := pointsOfInterest s;
     mapZoomLevel := mapZoomLevel s; userPrompt := userPrompt s;
     currentRun := currentRun s; messages := messages s;
     assistantWriting := assistantWriting s; loading := loading s |}.

Definition with_pointsOfInterest (p : Value) (s : State) : State :=
  {| mapCenter := mapCenter s; pointsOfInterest := p;
     mapZoomLevel := mapZoomLevel s; userPrompt := userPrompt s;
     currentRun := currentRun s; messages := messages s;
     assistantWriting := assistantWriting s; loading := loading s |}.

Definition with_mapZoomLevel (z : Value) (s : State) : State :=
  {| mapCenter := mapCenter s; pointsOfInterest := pointsOfInterest s;
     mapZoomLevel := z; userPrompt := userPrompt s;
     currentRun := currentRun s; messages := messages s;
     assistantWriting := assistantWriting s; loading := loading s |}.

Definition with_userPrompt (p : string) (s : State) : State :=
  {| mapCenter := mapCenter s; pointsOfInterest := pointsOfInterest s;
     mapZoomLevel := mapZoomLevel s; userPrompt := p;
     currentRun := currentRun s; messages := messages s;
     assistantWriting := assistantWriting s; loading := loading s |}.

Definition with_currentRun (r : option Run) (s : State) : State :=
  {| mapCenter := mapCenter s; pointsOfInterest := pointsOfInterest s;
     mapZoomLevel := mapZoomLevel s; userPrompt := userPrompt s;
     currentRun := r; messages := messages s;
     assistantWriting := assistantWriting s; loading := loading s |}.

Definition with_messages (l : list Message) (s : State) : State :=
  {| mapCenter := mapCenter s; pointsOfInterest := pointsOfInterest s;
     mapZoomLevel := mapZoomLevel s; userPrompt := userPrompt s;
     currentRun := currentRun s; messages := l;
     assistantWriting := assistantWriting s; loading := loading s |}.

Definition with_assistantWriting (b : bool) (s : State) : State :=
  {| mapCenter := mapCenter s; pointsOfInterest := pointsOfInterest s;
     mapZoomLevel := mapZoomLevel s; userPrompt := userPrompt s;
     currentRun := currentRun s; messages := messages s;
     assistantWriting := b; loading := loading s |}.

Definition with_loading (b : bool) (s : State) : State :=
  {| mapCenter := mapCenter s; pointsOfInterest := pointsOfInterest s;
     mapZoomLevel := mapZoomLevel s; userPrompt := userPrompt s;
     currentRun := currentRun s; messages := messages s;
     assistantWriting := assistantWriting s; loading := b |}.

(** ** The world around the state: requests, timers, the error log *)

Inductive Request : Type :=
| GetMessages                                   (* GET  /api/threads/{id}/messages *)
| GetRuns                                       (* GET  /api/threads/{id}/runs *)
| GetRun (runId : string)                       (* GET  /api/threads/{id}/runs/{runId} *)
| PostMessage (messageContent : string)         (* POST /api/threads/{id}/messages *)
| PostOutputs (runId : string) (toolOutputs : list ToolOutput).
                                                (* POST /api/threads/{id}/runs/{runId} *)

(** Whether the promise of a request is chained into [hydrateMessages]. *)
Inductive Chain : Type := Standalone | Hydrating.

(** A request in flight.  [env] is the render snapshot its [then] callback
    closes over. *)
Record Pending : Type := {
  request : Request;
  env : State;
  chain : Chain
}.

(** A timer set by [setTimeout]; [timer_env] is the snapshot of the render
    whose [pollRunStatus] set it. *)
Record Timer : Type := {
  timeoutId : nat;
  due : Z;
  timer_env : State
}.

Record World : Type := {
  state : State;
  pending : list Pending;
  timers : list Timer;
  errors : list Error;        (* what Logger.error and console.error received *)
  now : Z;                    (* milliseconds *)
  nextTimeoutId : nat;        (* the number of timers set so far *)
  runChanged : bool           (* setCurrentRun was called since the last render *)
}.

Definition with_state (s : State) (w : World) : World :=
  {| state := s; pending := pending w; timers := timers w; errors := errors w;
     now := now w; nextTimeoutId := nextTimeoutId w; runChanged := runChanged w |}.

Definition with_pending (l : list Pending) (w : World) : World :=
  {| state := state w; pending := l; timers := timers w; errors := errors w;
     now := now w; nextTimeoutId := nextTimeoutId w; runChanged := runChanged w |}.

Definition with_timers (l : list Timer) (w : World) : World :=
  {| state := state w; pending := pending w; timers := l; errors := errors w;
     now := now w; nextTimeoutId := nextTimeoutId w; runChanged := runChanged w |}.

Definition with_errors (l : list Error) (w : World) : World :=
  {| state := state w; pending := pending w; timers := timers w; errors := l;
     now := now w; nextTimeoutId := nextTimeoutId w; runChanged := runChanged w |}.

Definition with_now (t : Z) (w : World) : World :=
  {| state := state w; pending := pending w; timers := timers w; errors := errors w;
     now := t; nextTimeoutId := nextTimeoutId w; runChanged := runChanged w |}.

Definition with_nextTimeoutId (n : nat) (w : World) : World :=
  {| state := state w; pending := pending w; timers := timers w; errors := errors w;
     now := now w; nextTimeoutId := n; runChanged := runChanged w |}.

Definition with_runChanged (b : bool) (w : World) : World :=
  {| state := state w; pending := pending w; timers := timers w; errors := errors w;
     now := now w; nextTimeoutId := nextTimeoutId w; runChanged := b |}.

(** ** Callbacks as computations

    A callback either returns a value or raises; what it did to the world
    before raising stays done. *)

Definition M (A : Type) : Type := World -> (Error + A) * World.

Definition ret {A} (a : A) : M A := fun w => (inr a, w).

Definition bind {A B} (m : M A) (k : A -> M B) : M B :=
  fun w =>
    match m w with
    | (inr a, w') => k a w'
    | (inl e, w') => (inl e, w')
    end.

Definition raise {A} (e : Error) : M A := fun w => (inl e, w).

Definition lift {A} (r : Error + A) : M A := fun w => (r, w).

(** [try { m } catch (e) { handler e }], and [promise.catch(handler)]. *)
Definition try_catch {A} (m : M A) (handler : Error -> M A) : M A :=
  fun w =>
    match m w with
    | (inr a, w') => (inr a, w')
    | (inl e, w') => handler e w'
    end.

Declare Scope cb_scope.
Delimit Scope cb_scope with cb.
Notation "x <- m ;; k" := (bind m (fun x => k))
  (at level 61, m at next level, right associativity) : cb_scope.
Notation "m ;; k" := (bind m (fun _ => k))
  (at level 61, right associativity) : cb_scope.
Open Scope cb_scope.

Definition modify (f : State -> State) : M unit :=
  fun w => (inr tt, with_state (f (state w)) w).

(** The world a callback leaves behind. *)
Definition run {A} (m : M A) (w : World) : World := snd (m w).

(** *** State setters *)

Definition setMapCenter (c : Center) : M unit := modify (with_mapCenter c).
Definition setPointsOfInterest (p : Value) : M unit := modify (with_pointsOfInterest p).
Definition setMapZoomLevel (z : Value) : M unit := modify (with_mapZoomLevel z).
Definition setUserPrompt (p : string) : M unit := modify (with_userPrompt p).
Definition setMessages (l : list Message) : M unit := modify (with_messages l).
Definition setAssistantWriting (b : bool) : M unit := modify (with_assistantWriting b).
Definition setLoading (b : bool) : M unit := modify (with_loading b).

(** Every run stored comes out of a fresh response, so storing it always
    changes the [currentRun] dependency of the next render. *)
Definition setCurrentRun (r : Run) : M unit :=
  fun w => (inr tt, with_runChanged true (with_state (with_currentRun (Some r) (state w)) w)).

(** *** Logging, requests, timers *)

Definition Logger_error (e : Error) : M unit :=
  fun w => (inr tt, with_errors (errors w ++ [e]) w).

Definition console_error (e : Error) : M unit :=
  fun w => (inr tt, with_errors (errors w ++ [e]) w).

Definition axios (r : Request) (closure : State) (c : Chain) : M unit :=
  fun w => (inr tt,
            with_pending (pending w ++ [{| request := r; env := closure; chain := c |}]) w).

Definition setTimeout (closure : State) (ms : Z) : M nat :=
  fun w =>
    let tid := nextTimeoutId w in
    (inr tid,
     with_nextTimeoutId (S tid)
       (with_timers (timers w ++ [{| timeoutId := tid; due := (now w + ms)%Z;
                                     timer_env := closure |}]) w)).

Definition clearTimeout (tid : nat) : M unit :=
  fun w => (inr tt,
            with_timers (filter (fun t => negb (Nat.eqb (timeoutId t) tid)) (timers w)) w).

(** What the server answers, one shape per endpoint. *)
Inductive Response : Type :=
| MessagesData (newMessages : option (list Message))   (* GET messages *)
| RunsData (run : option Run)                          (* GET runs *)
| RunData (run : Run)                                  (* GET runs/{runId} *)
| MessageData (message : Message) (run : Run)          (* POST messages *)
| OutputsData (run : Run).                             (* POST runs/{runId} *)

Inductive Settled : Type :=
| Fulfilled (data : Response)
| Rejected (error : Error).

Definition messages_of (r : Settled) : option (Error + option (list Message)) :=
  match r with
  | Rejected e => Some (inl e)
  | Fulfilled (MessagesData fetched) => Some (inr fetched)
  | Fulfilled _ => None
  end.

Definition runs_of (r : Settled) : option (Error + option Run) :=
  match r with
  | Rejected e => Some (inl e)
  | Fulfilled (RunsData latest) => Some (inr latest)
  | Fulfilled _ => None
  end.

Definition run_of (r : Settled) : option (Error + Run) :=
  match r with
  | Rejected e => Some (inl e)
  | Fulfilled (RunData r') => Some (inr r')
  | Fulfilled _ => None
  end.

Definition message_of (r : Settled) : option (Error + Message * Run) :=
  match r with
  | Rejected e => Some (inl e)
  | Fulfilled (MessageData m r') => Some (inr (m, r'))
  | Fulfilled _ => None
  end.

Definition outputs_of (r : Settled) : option (Error + Run) :=
  match r with
  | Rejected e => Some (inl e)
  | Fulfilled (OutputsData r') => Some (inr r')
  | Fulfilled _ => None
  end.

(** What the event loop can run next. *)
Inductive Event : Type :=
| Tick (ms : Z)                   (* time passes *)
| Fire (n : nat)                  (* the n-th pending timer runs its callback *)
| Settle (n : nat) (r : Settled)  (* the n-th request in flight settles *)
| Typing (text : string)          (* onChange of the prompt input *)
| Enter.                          (* onKeyDown with the Enter key *)

Definition remove_nth {A} (n : nat) (l : list A) : list A :=
  firstn n l ++ skipn (S n) l.

(** ** The component *)

Definition active_statuses : list string :=
  ["queued"; "in_progress"; "cancelling"; "requires_action"].

(** [Array.prototype.includes] on strings. *)
Definition includes (l : list string) (x : string) : bool :=
  existsb (String.eqb x) l.

Definition isRunActive (run : option Run) : bool :=
  match run with
  | None => false
  | Some r => includes active_statuses (status r)
  end.

Section Component.

Context {objects : Objects}.

(** *** Tool handlers

    [messages] in each of them is the list of the render the handler was
    created in, here [messages closure]. *)

Definition changeMapZoomLevel (closure : State) (zoomLevel : Value) : M string :=
  setMessages (messages closure ++ [generateAnnotation "Updated Map" "zoom"]) ;;
  setMapZoomLevel zoomLevel ;;
  ret "Map mapZoomLevel level set successfully.".

(** The first statement formats [latitude] and [longitude] into a log
    line, which raises when one of them cannot be converted to a string. *)
Definition changeMapCenter (closure : State) (latitude longitude zoomLevel : Value)
  : M string :=
  lift (ToString latitude) ;;
  lift (ToString longitude) ;;
  setMessages (messages closure ++ [generateAnnotation "Updated Map" "center"]) ;;
  setMapCenter {| lat := latitude; lng := longitude |} ;;
  setMapZoomLevel zoomLevel ;;
  ret "Map centered set successfully.".

(** The first statement formats [locations.length] into a log line, which
    raises when [locations] is null or undefined, and when the length read
    cannot be converted to a string. *)
Definition addLocationsToMap (closure : State)
    (locations latitude longitude zoomLevel : Value) : M string :=
  len <- lift (get_length locations) ;;
  lift (ToString len) ;;
  setMessages (messages closure ++ [generateAnnotation "Annotated Map" "mark"]) ;;
  setMapCenter {| lat := latitude; lng := longitude |} ;;
  setMapZoomLevel zoomLevel ;;
  setPointsOfInterest locations ;;
  ret "Map locations marked successfully.".

(** *** executeAssistantActions *)

(** One turn of the [for] loop. *)
Definition executeAction (closure : State) (action : ToolCall)
    (outputs : list ToolOutput) : M (list ToolOutput) :=
  if String.eqb (type action) "function" then
    args <- lift (JSON_parse (arguments (function action))) ;;
    if String.eqb (name (function action)) "changeMapZoomLevel" then
      zoomLevel <- lift (get args "zoomLevel") ;;
      response <- changeMapZoomLevel closure zoomLevel ;;
      ret (outputs ++ [{| tool_call_id := call_id action; output := response |}])
    else if String.eqb (name (function action)) "changeMapCenter" then
      latitude <- lift (get args "latitude") ;;
      longitude <- lift (get args "longitude") ;;
      zoomLevel <- lift (get args "zoomLevel") ;;
      response <- changeMapCenter closure latitude longitude zoomLevel ;;
      ret (outputs ++ [{| tool_call_id := call_id action; output := response |}])
    else if String.eqb (name (function action)) "addLocationsToMap" then
      markers <- lift (get args "markers") ;;
      centerLatitude <- lift (get args "centerLatitude") ;;
      centerLongitude <- lift (get args "centerLongitude") ;;
      zoomLevel <- lift (get args "zoomLevel") ;;
      response <- addLocationsToMap closure markers centerLatitude centerLongitude
                    zoomLevel ;;
      ret (outputs ++ [{| tool_call_id := call_id action; output := response |}])
    else ret outputs
  else ret outputs.

Fixpoint executeActions (closure : State) (actions : list ToolCall)
    (outputs : list ToolOutput) : M (list ToolOutput) :=
  match actions with
  | [] => ret outputs
  | action :: rest =>
      outputs' <- executeAction closure action outputs ;;
      executeActions closure rest outputs'
  end.

Definition executeAssistantActions (closure : State) (run : Run)
  : M (list ToolOutput) :=
  match required_action run with
  | None => ret []
  | Some ra => executeActions closure (tool_calls (submit_tool_outputs ra)) []
  end.

(** *** Promise plumbing *)

(** [request.then(on_then).catch(on_catch)] once the request has settled
    with [r]: a rejection goes to [on_catch], and so does whatever
    [on_then] raises. *)
Definition settle {A} (r : Error + A) (on_then : A -> M unit)
    (on_catch : Error -> M unit) : M unit :=
  match r with
  | inr a => try_catch (on_then a) on_catch
  | inl e => on_catch e
  end.

(** *** fetchMessages

    Memoised with no dependencies: the callback in use is always the one
    of the first render, so wherever the component calls it the closure is
    [initialState]. *)

Definition missingMessages (known newMessages : list Message) : list Message :=
  filter
    (fun msg => negb (existsb (fun m => String.eqb (msg_id m) (msg_id msg)) known))
    newMessages.

(** [l.sort((a, b) => a.created_at - b.created_at)].  [Array.prototype.sort]
    is stable, and the stable sort of a list is unique, so it is written
    here as a stable insertion sort. *)
Fixpoint insert_by_created_at (m : Message) (l : list Message) : list Message :=
  match l with
  | [] => [m]
  | x :: rest =>
      if (created_at m <=? created_at x)%Z then m :: l
      else x :: insert_by_created_at m rest
  end.

Fixpoint sort_by_created_at (l : list Message) : list Message :=
  match l with
  | [] => []
  | m :: rest => insert_by_created_at m (sort_by_created_at rest)
  end.

Definition fetchMessages (closure : State) (c : Chain) : M unit :=
  axios GetMessages closure c.

Definition fetchMessages_then (closure : State)
    (newMessages : option (list Message)) : M unit :=
  match newMessages with
  | Some fetched =>
      setMessages
        (sort_by_created_at
           (messages closure ++ missingMessages (messages closure) fetched))
  | None => ret tt
  end ;;
  setAssistantWriting false.

Definition fetchMessages_settled (closure : State)
    (r : Error + option (list Message)) : M unit :=
  settle r (fetchMessages_then closure) Logger_error.

(** *** submitFunctionOutputs *)

Definition submitFunctionOutputs (closure : State) (outputs : list ToolOutput)
    (runId : string) : M unit :=
  axios (PostOutputs runId outputs) closure Standalone.

Definition submitFunctionOutputs_settled (r : Error + Run) : M unit :=
  settle r setCurrentRun Logger_error.

(** *** fetchOpenRun (memoised with no dependencies) *)

Definition fetchOpenRun (closure : State) (c : Chain) : M unit :=
  axios GetRuns closure c.

Definition fetchOpenRun_then (closure : State) (latestRun : option Run) : M unit :=
  match latestRun with
  | Some r =>
      if isRunActive (Some r) then
        setCurrentRun r ;;
        if String.eqb (status r) "requires_action" then
          outputs <- executeAssistantActions closure r ;;
          submitFunctionOutputs closure outputs (run_id r)
        else ret tt
      else ret tt
  | None => ret tt
  end.

Definition fetchOpenRun_settled (closure : State) (r : Error + option Run)
  : M unit :=
  settle r (fetchOpenRun_then closure) Logger_error.

(** *** pollCurrentRunStatus (memoised on [currentRun]) *)

Definition pollCurrentRunStatus (closure : State) : M unit :=
  match currentRun closure with
  | None => ret tt
  | Some r => axios (GetRun (run_id r)) closure Standalone
  end.

Definition pollCurrentRunStatus_then (closure : State) (run : Run) : M unit :=
  setCurrentRun run ;;
  if negb (isRunActive (Some run)) then fetchMessages initialState Standalone
  else if String.eqb (status run) "requires_action" then
    outputs <- executeAssistantActions closure run ;;
    submitFunctionOutputs closure outputs (run_id run)
  else ret tt.

Definition pollCurrentRunStatus_settled (closure : State) (r : Error + Run)
  : M unit :=
  settle r (pollCurrentRunStatus_then closure) console_error.

(** *** handlePromptSubmission *)

Definition handlePromptSubmission (closure : State) : M unit :=
  setUserPrompt "" ;;
  axios (PostMessage (userPrompt closure)) closure Standalone.

Definition handlePromptSubmission_then (closure : State)
    (data : Message * Run) : M unit :=
  setMessages (messages closure ++ [fst data]) ;;
  setCurrentRun (snd data) ;;
  setAssistantWriting true.

Definition handlePromptSubmission_settled (closure : State)
    (r : Error + Message * Run) : M unit :=
  settle r (handlePromptSubmission_then closure) Logger_error.

(** *** hydrateMessages (memoised with no dependencies)

    [fetchMessages().then(() => fetchOpenRun()).then(() => setLoading(false))
     .catch(Logger.error)].  The two requests catch their own failures, so
    each link of the chain runs whatever became of the one before. *)

Definition hydrateMessages : M unit := fetchMessages initialState Hydrating.

Definition hydrate_after_fetchMessages : M unit := fetchOpenRun initialState Hydrating.

Definition hydrate_after_fetchOpenRun : M unit := setLoading false.

Definition chained (c : Chain) (settled next : M unit) : M unit :=
  match c with
  | Standalone => settled
  | Hydrating => try_catch (settled ;; next) Logger_error
  end.

(** *** pollRunStatus and its effect *)

(** The function [pollRunStatus] returns, [() => clearTimeout(timeoutId)],
    is represented by the timer it clears. *)
Definition Cleanup : Type := nat.

Definition run_cleanup (c : Cleanup) : M unit := clearTimeout c.

Definition truthy {A} (o : option A) : bool :=
  match o with Some _ => true | None => false end.

Definition poll_delay : Z := 2000.

Definition pollRunStatus (closure : State) : M (option Cleanup) :=
  if truthy (currentRun closure) && isRunActive (currentRun closure) then
    timeoutId <- setTimeout closure poll_delay ;;
    ret (Some timeoutId)
  else ret None.

(** [useEffect(() => { pollRunStatus(); }, [pollRunStatus])]: the body is a
    block, so what [pollRunStatus] returns is dropped and the effect has
    no cleanup. *)
Definition useEffect_pollRunStatus (closure : State) : M unit :=
  _ <- pollRunStatus closure ;;
  ret tt.

(** ** The event loop *)

(** The callback that runs when a request settles. *)
Definition deliver (p : Pending) (r : Settled) : option (M unit) :=
  match request p with
  | GetMessages =>
      option_map
        (fun r' => chained (chain p) (fetchMessages_settled (env p) r')
                     hydrate_after_fetchMessages)
        (messages_of r)
  | GetRuns =>
      option_map
        (fun r' => chained (chain p) (fetchOpenRun_settled (env p) r')
                     hydrate_after_fetchOpenRun)
        (runs_of r)
  | GetRun _ => option_map (pollCurrentRunStatus_settled (env p)) (run_of r)
  | PostMessage _ => option_map (handlePromptSubmission_settled (env p)) (message_of r)
  | PostOutputs _ _ => option_map submitFunctionOutputs_settled (outputs_of r)
  end.

(** The render that follows a callback.  The state updates of one callback
    are applied together; [pollRunStatus] is memoised on [currentRun], so
    its effect runs again exactly when the callback has set [currentRun]. *)
Definition render (w : World) : World :=
  if runChanged w then
    run (useEffect_pollRunStatus (state w)) (with_runChanged false w)
  else w.

(** One turn of the event loop: a callback, then the render it causes. *)
Definition turn (callback : M unit) (w : World) : World :=
  render (run callback (with_runChanged false w)).

(** The prompt input is on screen once loading is over, and is disabled
    while the assistant is writing. *)
Definition input_enabled (s : State) : bool :=
  negb (loading s) && negb (assistantWriting s).

Definition step (ev : Event) (w : World) : option World :=
  match ev with
  | Tick ms =>
      if (0 <=? ms)%Z then Some (with_now (now w + ms)%Z w) else None
  | Fire n =>
      match nth_error (timers w) n with
      | Some t =>
          if (due t <=? now w)%Z then
            Some (turn (pollCurrentRunStatus (timer_env t))
                    (with_timers (remove_nth n (timers w)) w))
          else None
      | None => None
      end
  | Settle n r =>
      match nth_error (pending w) n with
      | Some p =>
          match deliver p r with
          | Some callback =>
              Some (turn callback (with_pending (remove_nth n (pending w)) w))
          | None => None
          end
      | None => None
      end
  | Typing text =>
      if input_enabled (state w) then Some (turn (setUserPrompt text) w)
      else None
  | Enter =>
      if input_enabled (state w) then Some (turn (handlePromptSubmission (state w)) w)
      else None
  end.

Fixpoint exec (evs : list Event) (w : World) : option World :=
  match evs with
  | [] => Some w
  | ev :: rest =>
      match step ev w with
      | Some w' => exec rest w'
      | None => None
      end
  end.

Definition blank : World := {|
  state := initialState;
  pending := [];
  timers := [];
  errors := [];
  now := 0;
  nextTimeoutId := 0;
  runChanged := false
|}.

(** The world after the first render and its effects. *)
Definition mount : World :=
  run (useEffect_pollRunStatus initialState ;; hydrateMessages) blank.

End Component.

(** ** Vocabulary of the properties *)

(** *** Tool calls *)

Definition handled_names : list string :=
  ["changeMapZoomLevel"; "changeMapCenter"; "addLocationsToMap"].

(** A tool call that reaches one of the three handlers. *)
Definition handled (action : ToolCall) : bool :=
  String.eqb (type action) "function"
  && includes handled_names (name (function action)).

Definition success_string (fname : string) : string :=
  if String.eqb fname "changeMapZoomLevel" then "Map mapZoomLevel level set successfully."
  else if String.eqb fname "changeMapCenter" then "Map centered set successfully."
  else "Map locations marked successfully.".

Definition output_for (action : ToolCall) : ToolOutput :=
  {| tool_call_id := call_id action;
     output := success_string (name (function action)) |}.

(** The markers [addLocationsToMap] can measure: they are there, and the
    length read from them converts to a string (as that of every array
    does). *)
Definition measurable (locations : Value) : bool :=
  negb (nullish locations) && printable (length_of locations).

(** A tool call on which nothing raises: its arguments are JSON whenever they
    are parsed, they are not [null] when a property of them is read, and
    what the handler formats into its log line converts to a string: the
    latitude and the longitude for [changeMapCenter], the length of the
    markers for [addLocationsToMap]. *)
Definition completes (action : ToolCall) : bool :=
  if String.eqb (type action) "function" then
    match arguments (function action) with
    | NotJson => false
    | JsonOf args =>
        if String.eqb (name (function action)) "changeMapZoomLevel" then
          negb (nullish args)
        else if String.eqb (name (function action)) "changeMapCenter" then
          negb (nullish args)
          && printable (field args "latitude")
          && printable (field args "longitude")
        else if String.eqb (name (function action)) "addLocationsToMap" then
          negb (nullish args) && measurable (field args "markers")
        else true
    end
  else true.

Definition actions_of (run : Run) : list ToolCall :=
  match required_action run with
  | None => []
  | Some ra => tool_calls (submit_tool_outputs ra)
  end.

Definition map_state (s : State) : Center * Value * Value :=
  (mapCenter s, mapZoomLevel s, pointsOfInterest s).

(** *** Requests *)

Definition is_poll (r : Request) : bool :=
  match r with GetRun _ => true | _ => false end.

Definition is_submission (r : Request) : bool :=
  match r with PostOutputs _ _ => true | _ => false end.

Definition requests (w : World) : list Request := map request (pending w).

Definition submissions (w : World) : list Request := filter is_submission (requests w).

Definition polls_in_flight (w : World) : nat := List.length (filter is_poll (requests w)).


Definition logged (e : Error) (w : World) : World := with_errors (errors w ++ [e]) w.

(** The submission a callback makes for the run [r] it received, given what
    [executeAssistantActions] came to. *)
Definition submitted_for (r : Run) (result : Error + list ToolOutput) : list Request :=
  if String.eqb (status r) "requires_action" then
    match result with
    | inr outputs => [PostOutputs (run_id r) outputs]
    | inl _ => []
    end
  else [].

(** What such a callback logs: the error [executeAssistantActions] raised,
    if it raised one. *)
Definition logged_for (r : Run) (result : Error + list ToolOutput) : list Error :=
  if String.eqb (status r) "requires_action" then
    match result with
    | inr _ => []
    | inl e => [e]
    end
  else [].

(** *** Events *)

Definition run_carried (data : Response) : option Run :=
  match data with
  | MessagesData _ => None
  | RunsData latest => latest
  | RunData r => Some r
  | MessageData _ r => Some r
  | OutputsData r => Some r
  end.

(** The event is a response that brings a run in an active state. *)
Definition carries_active_run (ev : Event) : bool :=
  match ev with
  | Settle _ (Fulfilled data) => isRunActive (run_carried data)
  | _ => false
  end.


(** *** Messages *)

Definition ids (l : list Message) : list string := map msg_id l.

Definition ascending (l : list Message) : Prop :=
  StronglySorted (fun a b => (created_at a <= created_at b)%Z) l.

Definition occurrences (i : string) (l : list Message) : nat :=
  List.length (filter (fun m => String.eqb (msg_id m) i) l).

(** *** What a callback leaves alone *)

(** A callback respects a relation between worlds when the world it leaves
    is related to the one it started in, whether it returns or raises. *)
Definition respects (R : World -> World -> Prop) {A} (m : M A) : Prop :=
  forall w, R w (run m w).

(** What the tool handlers leave alone: everything but the map cells and the
    messages. *)
Record frame (w w' : World) : Prop := {
  frame_userPrompt : userPrompt (state w') = userPrompt (state w);
  frame_currentRun : currentRun (state w') = currentRun (state w);
  frame_assistantWriting : assistantWriting (state w') = assistantWriting (state w);
  frame_loading : loading (state w') = loading (state w);
  frame_pending : pending w' = pending w;
  frame_timers : timers w' = timers w;
  frame_errors : errors w' = errors w;
  frame_now : now w' = now w;
  frame_nextTimeoutId : nextTimeoutId w' = nextTimeoutId w;
  frame_runChanged : runChanged w' = runChanged w
}.

(** What the callback of a settled request leaves alone: the timers, the
    clock and the polls in flight. *)
Record undisturbed (w w' : World) : Prop := {
  und_timers : timers w' = timers w;
  und_nextTimeoutId : nextTimeoutId w' = nextTimeoutId w;
  und_now : now w' = now w;
  und_polls : polls_in_flight w' = polls_in_flight w
}.

(** A request for the messages whose callback is the one of the first
    render. *)
Definition first_render (p : Pending) : Prop :=
  request p = GetMessages -> env p = initialState.

Definition keeps_first_render (w w' : World) : Prop :=
  Forall first_render (pending w) -> Forall first_render (pending w').

(** Whether the render that follows will set a poll timer. *)
Definition armed (w : World) : bool :=
  runChanged w && isRunActive (currentRun (state w)).

Definition poll_timer (w : World) : Timer :=
  {| timeoutId := nextTimeoutId w; due := (now w + poll_delay)%Z; timer_env := state w |}.

Definition reachable {objects : Objects} (w : World) : Prop :=
  exists evs, exec evs mount = Some w.

(** ** Sample data *)

Definition sample_objects : Objects :=
  {| generateAnnotation title kind :=
       {| msg_id := kind; created_at := 0; content := title |} |}.

Definition zoom_call : ToolCall :=
  {| call_id := "call_1"; type := "function";
     function := {| name := "changeMapZoomLevel";
                    arguments := JsonOf (VObject [("zoomLevel", VNumber 5 0)]) |} |}.

Definition mark_call : ToolCall :=
  {| call_id := "call_2"; type := "function";
     function :=
       {| name := "addLocationsToMap";
          arguments :=
            JsonOf (VObject [("markers", VArray [VString "Louvre"]);
                             ("centerLatitude", VNumber 488606 (-4));
                             ("centerLongitude", VNumber 23376 (-4));
                             ("zoomLevel", VNumber 14 0)]) |} |}.

Definition center_call : ToolCall :=
  {| call_id := "call_7"; type := "function";
     function :=
       {| name := "changeMapCenter";
          arguments :=
            JsonOf (VObject [("latitude", VNumber 488606 (-4));
                             ("longitude", VNumber 23376 (-4));
                             ("zoomLevel", VNumber 14 0)]) |} |}.

(** [changeMapCenter] called with a latitude that is an object with a
    [toString] property of its own. *)
Definition center_call_unprintable : ToolCall :=
  {| call_id := "call_8"; type := "function";
     function :=
       {| name := "changeMapCenter";
          arguments :=
            JsonOf (VObject [("latitude", VObject [("toString", VNumber 1 0)]);
                             ("longitude", VNumber 23376 (-4));
                             ("zoomLevel", VNumber 14 0)]) |} |}.

(** [addLocationsToMap] called with markers that are an object whose
    [length] is such an object. *)
Definition mark_call_unprintable : ToolCall :=
  {| call_id := "call_9"; type := "function";
     function :=
       {| name := "addLocationsToMap";
          arguments :=
            JsonOf (VObject
                      [("markers",
                        VObject [("length", VObject [("toString", VNumber 1 0)])]);
                       ("centerLatitude", VNumber 488606 (-4));
                       ("centerLongitude", VNumber 23376 (-4));
                       ("zoomLevel", VNumber 14 0)]) |} |}.

(** [addLocationsToMap] called with the arguments [{}]. *)
Definition mark_call_without_markers : ToolCall :=
  {| call_id := "call_3"; type := "function";
     function := {| name := "addLocationsToMap"; arguments := JsonOf (VObject []) |} |}.

(** A function the component does not know, with arguments that are not
    JSON. *)
Definition unknown_call_not_json : ToolCall :=
  {| call_id := "call_4"; type := "function";
     function := {| name := "openStreetView"; arguments := NotJson |} |}.

Definition zoom_call_not_json : ToolCall :=
  {| call_id := "call_5"; type := "function";
     function := {| name := "changeMapZoomLevel"; arguments := NotJson |} |}.

Definition retrieval_call : ToolCall :=
  {| call_id := "call_6"; type := "retrieval";
     function := {| name := "changeMapZoomLevel"; arguments := NotJson |} |}.

Definition run_requiring (calls : list ToolCall) : Run :=
  {| run_id := "run_1"; status := "requires_action";
     required_action := Some {| submit_tool_outputs := {| tool_calls := calls |} |} |}.

Definition run_queued : Run :=
  {| run_id := "run_1"; status := "queued"; required_action := None |}.

Definition run_in_progress : Run :=
  {| run_id := "run_1"; status := "in_progress"; required_action := None |}.

Definition run_completed : Run :=
  {| run_id := "run_1"; status := "completed"; required_action := None |}.

Definition message_late : Message :=
  {| msg_id := "msg_1"; created_at := 10; content := "Where shall I go?" |}.

Definition message_early : Message :=
  {| msg_id := "msg_2"; created_at := 5; content := "Paris" |}.

(** The world the component is in after the events [evs] since mounting. *)
Definition after (evs : list Event) : World :=
  match exec (objects := sample_objects) evs mount with
  | Some w => w
  | None => blank
  end.

(** Hydration finds an open run waiting for the outputs of one tool call. *)
Definition hydrated_requiring : list Event :=
  [Settle 0 (Fulfilled (MessagesData (Some [])));
   Settle 0 (Fulfilled (RunsData (Some (run_requiring [zoom_call]))))].

(** Hydration finds an open run that is queued. *)
Definition hydrated_queued : list Event :=
  [Settle 0 (Fulfilled (MessagesData (Some [])));
   Settle 0 (Fulfilled (RunsData (Some run_queued)))].

(** The poll answers "completed" while the submission of the tool outputs is
    still in flight. *)
Definition poll_answered_completed : list Event :=
  hydrated_requiring
  ++ [Tick 2000; Fire 0; Settle 1 (Fulfilled (RunData run_completed))].


(** The submission answers half a second after the open run was stored. *)
Definition run_replaced : list Event :=
  hydrated_requiring
  ++ [Tick 500; Settle 0 (Fulfilled (OutputsData run_in_progress))].


(** A prompt whose message is dated before the one already shown, then a
    poll that ends the run and a fetch that brings no [newMessages]. *)
Definition fetched_nothing_new : list Event :=
  [Settle 0 (Fulfilled (MessagesData (Some [message_late])));
   Settle 0 (Fulfilled (RunsData None));
   Typing "Paris";
   Enter;
   Settle 0 (Fulfilled (MessageData message_early run_queued));
   Tick 2000;
   Fire 0;
   Settle 0 (Fulfilled (RunData run_completed));
   Settle 0 (Fulfilled (MessagesData None))].

(** ** Vocabulary of the further properties *)

(** The annotation the handler of a handled tool call appends. *)
Definition annotation_of {objects : Objects} (action : ToolCall) : Message :=
  if String.eqb (name (function action)) "changeMapZoomLevel" then
    generateAnnotation "Updated Map" "zoom"
  else if String.eqb (name (function action)) "changeMapCenter" then
    generateAnnotation "Updated Map" "center"
  else generateAnnotation "Annotated Map" "mark".

(** How a request for the messages, for the open run, settles. *)
Definition settled_messages (r : Error + option (list Message)) : Settled :=
  match r with
  | inl e => Rejected e
  | inr fetched => Fulfilled (MessagesData fetched)
  end.

Definition settled_runs (r : Error + option Run) : Settled :=
  match r with
  | inl e => Rejected e
  | inr latest => Fulfilled (RunsData latest)
  end.

(** The event is a successful answer to a request for the messages. *)
Definition brings_messages (ev : Event) : bool :=
  match ev with
  | Settle _ (Fulfilled (MessagesData _)) => true
  | _ => false
  end.

(** What every callback but [fetchMessages]'s [then] leaves alone: a set
    [assistantWriting]. *)
Definition writing_kept (w w' : World) : Prop :=
  assistantWriting (state w) = true -> assistantWriting (state w') = true.

(** What a callback that raises nothing leaves alone: the error log. *)
Definition log_kept (w w' : World) : Prop := errors w' = errors w.

(** The ids of the pending timers are below the next id. *)
Definition fresh_ids (w : World) : Prop :=
  Forall (fun t => timeoutId t < nextTimeoutId w) (timers w).

(** Every pending timer was set in a render whose run was active. *)
Definition timers_hold_active_runs (w : World) : Prop :=
  Forall (fun t => isRunActive (currentRun (timer_env t)) = true) (timers w).

(** The tool calls of the run a response brings. *)
Definition actions_carried (data : Response) : list ToolCall :=
  match run_carried data with
  | Some r => actions_of r
  | None => []
  end.

(** The user submits a prompt that is accepted with a queued run. *)
Definition prompt_accepted : list Event :=
  [Settle 0 (Fulfilled (MessagesData (Some [message_late])));
   Settle 0 (Fulfilled (RunsData None));
   Typing "Paris";
   Enter;
   Settle 0 (Fulfilled (MessageData message_early run_queued))].

(** The run completes, and the fetch of the messages that follows is about
    to settle. *)
Definition run_ended : list Event :=
  prompt_accepted
  ++ [Tick 2000; Fire 0; Settle 0 (Fulfilled (RunData run_completed))].

(** Nothing fails in the event: it is no rejection, and no tool call of the
    run it brings raises. *)
Definition nothing_fails (ev : Event) : Prop :=
  match ev with
  | Settle _ (Rejected _) => False
  | Settle _ (Fulfilled data) => Forall (fun a => completes a = true) (actions_carried data)
  | _ => True
  end.

(** What a tool call raises in the loop, if anything: [JSON.parse] on its
    arguments, the first property read on [null] arguments, the latitude or
    the longitude that [changeMapCenter] cannot format into its log line,
    or the markers whose length [addLocationsToMap] cannot read or
    format. *)
Definition raises (action : ToolCall) : option Error :=
  if String.eqb (type action) "function" then
    match arguments (function action) with
    | NotJson => Some SyntaxError
    | JsonOf args =>
        if includes handled_names (name (function action)) then
          if nullish args then Some TypeError
          else if String.eqb (name (function action)) "changeMapCenter"
                  && negb (printable (field args "latitude")
                           && printable (field args "longitude"))
               then Some TypeError
          else if String.eqb (name (function action)) "addLocationsToMap"
                  && negb (measurable (field args "markers"))
               then Some TypeError
               else None
        else None
    end
  else None.

(** A whole round: the prompt is sent and accepted with the run [r]; the
    run is polled once and has ended as [r']; the messages are fetched. *)
Definition round (m : Message) (r r' : Run) (fetched : list Message) : list Event :=
  [Enter;
   Settle 0 (Fulfilled (MessageData m r));
   Tick 2000;
   Fire 0;
   Settle 0 (Fulfilled (RunData r'));
   Settle 0 (Fulfilled (MessagesData (Some fetched)))].

(** What every callback leaves alone: a [loading] that is over. *)
Definition loading_over (w w' : World) : Prop :=
  loading (state w) = false -> loading (state w') = false.

(** Hydration has found no message and no run; the user has typed a prompt. *)
Definition prompt_typed : list Event :=
  [Settle 0 (Fulfilled (MessagesData (Some [])));
   Settle 0 (Fulfilled (RunsData None));
   Typing "Paris"].

(** * Properties *)

(** ** Callbacks and the relations they respect *)

Section Respects.

Variable R : World -> World -> Prop.
Hypothesis R_refl : forall w, R w w.
Hypothesis R_trans : forall w1 w2 w3, R w1 w2 -> R w2 w3 -> R w1 w3.

Lemma respects_ret {A} (a : A) : respects R (ret a).
Proof. intros w. apply R_refl. Qed.

Lemma respects_lift {A} (r : Error + A) : respects R (lift r).
Proof. intros w. apply R_refl. Qed.

Lemma respects_raise {A} (e : Error) : respects R (raise (A := A) e).
Proof. intros w. apply R_refl. Qed.

Lemma respects_bind {A B} (m : M A) (k : A -> M B) :
  respects R m -> (forall a, respects R (k a)) -> respects R (bind m k).
Proof.
  intros Hm Hk w. unfold run, bind. specialize (Hm w). unfold run in Hm.
  destruct (m w) as [[e|a] w1]; cbn [snd] in *.
  - exact Hm.
  - eapply R_trans; [exact Hm | apply Hk].
Qed.

Lemma respects_try_catch {A} (m : M A) (handler : Error -> M A) :
  respects R m -> (forall e, respects R (handler e)) ->
  respects R (try_catch m handler).
Proof.
  intros Hm Hh w. unfold run, try_catch. specialize (Hm w). unfold run in Hm.
  destruct (m w) as [[e|a] w1]; cbn [snd] in *.
  - eapply R_trans; [exact Hm | apply Hh].
  - exact Hm.
Qed.

End Respects.

(** Splits a callback along its binds, branches and handlers, and leaves its
    primitive calls to [leaf]. *)
Ltac respects_by refl trans leaf :=
  repeat first
    [ apply (respects_ret _ refl)
    | apply (respects_lift _ refl)
    | apply (respects_raise _ refl)
    | apply (respects_bind _ trans); [|intro]
    | apply (respects_try_catch _ trans); [|intro]
    | match goal with
      | |- respects _ (if ?b then _ else _) => destruct b
      | |- respects _ (match ?x with _ => _ end) => destruct x
      end
    | leaf ].

Section Properties.

Context {objects : Objects}.

#[local] Arguments isRunActive : simpl never.

(** *** The three relations are preorders *)

Lemma frame_refl (w : World) : frame w w.
Proof. constructor; reflexivity. Qed.

Lemma frame_trans (w1 w2 w3 : World) : frame w1 w2 -> frame w2 w3 -> frame w1 w3.
Proof. intros [] []; constructor; etransitivity; eassumption. Qed.

Lemma undisturbed_refl (w : World) : undisturbed w w.
Proof. constructor; reflexivity. Qed.

Lemma undisturbed_trans (w1 w2 w3 : World) :
  undisturbed w1 w2 -> undisturbed w2 w3 -> undisturbed w1 w3.
Proof. intros [] []; constructor; etransitivity; eassumption. Qed.

Lemma keeps_first_render_refl (w : World) : keeps_first_render w w.
Proof. intros H. exact H. Qed.

Lemma keeps_first_render_trans (w1 w2 w3 : World) :
  keeps_first_render w1 w2 -> keeps_first_render w2 w3 -> keeps_first_render w1 w3.
Proof. intros H12 H23 H. apply H23, H12, H. Qed.

Lemma frame_undisturbed (w w' : World) : frame w w' -> undisturbed w w'.
Proof.
  intros []. constructor; try assumption.
  unfold polls_in_flight, requests. congruence.
Qed.

Lemma frame_keeps_first_render (w w' : World) : frame w w' -> keeps_first_render w w'.
Proof. intros [] H. congruence. Qed.

(** *** The tool handlers and their dispatcher *)

Ltac framed :=
  respects_by frame_refl frame_trans ltac:(solve [intros ?; constructor; reflexivity]).

Lemma get_field (v : Value) (key : string) :
  nullish v = false -> get v key = inr (field v key).
Proof. destruct v; simpl; intros H; try discriminate; reflexivity. Qed.

Lemma ToString_printable (v : Value) : printable v = true -> ToString v = inr tt.
Proof. unfold ToString. intros ->. reflexivity. Qed.

Lemma ToString_unprintable (v : Value) :
  printable v = false -> ToString v = inl TypeError.
Proof. unfold ToString. intros ->. reflexivity. Qed.

Lemma get_length_measurable (v : Value) :
  measurable v = true ->
  get_length v = inr (length_of v) /\ ToString (length_of v) = inr tt.
Proof.
  unfold measurable. intros H. apply andb_true_iff in H. destruct H as [Hv Hp].
  split; [|apply ToString_printable; exact Hp].
  unfold length_of. destruct v; try discriminate; reflexivity.
Qed.

Lemma get_length_unmeasurable (v : Value) :
  measurable v = false ->
  get_length v = inl TypeError
  \/ (get_length v = inr (length_of v) /\ ToString (length_of v) = inl TypeError).
Proof.
  unfold measurable. intros H. apply andb_false_iff in H. destruct H as [Hv|Hp].
  - left. destruct v; try discriminate; reflexivity.
  - destruct (nullish v) eqn:Hn.
    + left. destruct v; try discriminate; reflexivity.
    + right. split; [|apply ToString_unprintable; exact Hp].
      unfold length_of. destruct v; try discriminate; reflexivity.
Qed.

Lemma framed_executeAction closure action outputs :
  respects frame (executeAction closure action outputs).
Proof.
  unfold executeAction, changeMapZoomLevel, changeMapCenter, addLocationsToMap.
  framed.
Qed.

Lemma framed_executeActions closure actions : forall outputs,
  respects frame (executeActions closure actions outputs).
Proof.
  induction actions as [|a rest IH]; intros outputs; cbn [executeActions].
  - framed.
  - apply (respects_bind _ frame_trans); [apply framed_executeAction | intros; apply IH].
Qed.

Lemma framed_executeAssistantActions closure r :
  respects frame (executeAssistantActions closure r).
Proof.
  unfold executeAssistantActions. destruct (required_action r).
  - apply framed_executeActions.
  - framed.
Qed.

Lemma eqb_name_neq (a b : string) : a <> b -> String.eqb a b = false.
Proof. intros H. apply String.eqb_neq. exact H. Qed.

(** C3: each tool handler sets the map state it names and returns its
    success string.  [changeMapZoomLevel(z)] sets the zoom level to [z];
    [changeMapCenter(lat, lng, z)], called with a latitude and a longitude
    that convert to a string, as every number does, sets the centre to
    [{lat, lng}] and the zoom level to [z];
    [addLocationsToMap(locations, lat, lng, z)], called with an array as its
    signature says, sets the points of interest to [locations], the centre
    to [{lat, lng}] and the zoom level to [z]. *)
Theorem tool_handlers_update_map_state
    (closure : State) (w : World) (z la lo : Value) (items : list Value) :
  (fst (changeMapZoomLevel closure z w) = inr "Map mapZoomLevel level set successfully."
   /\ mapZoomLevel (state (run (changeMapZoomLevel closure z) w)) = z)
  /\ (forall mantissa exponent, printable (VNumber mantissa exponent) = true)
  /\ (printable la = true -> printable lo = true ->
      fst (changeMapCenter closure la lo z w) = inr "Map centered set successfully."
      /\ mapCenter (state (run (changeMapCenter closure la lo z) w))
         = {| lat := la; lng := lo |}
      /\ mapZoomLevel (state (run (changeMapCenter closure la lo z) w)) = z)
  /\ (fst (addLocationsToMap closure (VArray items) la lo z w)
        = inr "Map locations marked successfully."
      /\ pointsOfInterest
           (state (run (addLocationsToMap closure (VArray items) la lo z) w))
         = VArray items
      /\ mapCenter (state (run (addLocationsToMap closure (VArray items) la lo z) w))
         = {| lat := la; lng := lo |}
      /\ mapZoomLevel
           (state (run (addLocationsToMap closure (VArray items) la lo z) w))
         = z).
Proof.
  split; [repeat split|]. split; [reflexivity|]. split; [|repeat split].
  intros Hla Hlo. unfold changeMapCenter, run, bind.
  rewrite (ToString_printable _ Hla), (ToString_printable _ Hlo).
  repeat split.
Qed.

(** C9: each tool handler leaves the map state it does not name as it was.
    [changeMapZoomLevel] leaves the centre and the points of interest,
    [changeMapCenter] leaves the points of interest, and after
    [addLocationsToMap] the points of interest are its [locations] argument
    whatever markers ([before]) were there: nothing is merged. *)
Theorem tool_handlers_leave_other_map_state
    (closure : State) (w : World) (z la lo before : Value) (items : list Value) :
  (mapCenter (state (run (changeMapZoomLevel closure z) w)) = mapCenter (state w)
   /\ pointsOfInterest (state (run (changeMapZoomLevel closure z) w))
      = pointsOfInterest (state w))
  /\ pointsOfInterest (state (run (changeMapCenter closure la lo z) w))
     = pointsOfInterest (state w)
  /\ pointsOfInterest
       (state (run (addLocationsToMap closure (VArray items) la lo z)
                 (with_state (with_pointsOfInterest before (state w)) w)))
     = VArray items.
Proof.
  repeat split.
  unfold changeMapCenter, run, bind, lift, ToString.
  destruct (printable la), (printable lo); reflexivity.
Qed.

(** C2 (amended): one turn of the loop of [executeAssistantActions]
    dispatches on exactly three function names.  For a tool call of type
    "function" whose arguments parse, the name "changeMapZoomLevel",
    "changeMapCenter" or "addLocationsToMap" invokes the handler of that
    name on the fields of the parsed arguments and records one output
    carrying the call's id, provided nothing raises on the way: the
    arguments are not [null], the latitude and the longitude of
    "changeMapCenter" convert to a string, and the markers of
    "addLocationsToMap" are neither missing nor [null] and have a length
    that converts to a string.  Any other name invokes no handler and
    records nothing, whatever the arguments are: the call is passed over
    when they parse, and raises what [JSON.parse] raises when they do
    not. *)
Theorem executeAction_dispatches_three_names
    (closure : State) (action : ToolCall) (outputs : list ToolOutput)
    (w : World) (args : Value) :
  type action = "function" ->
  (name (function action) = "changeMapZoomLevel" ->
     JSON_parse (arguments (function action)) = inr args ->
     nullish args = false ->
     executeAction closure action outputs w =
       (inr (outputs ++ [{| tool_call_id := call_id action;
                            output := "Map mapZoomLevel level set successfully." |}]),
        run (changeMapZoomLevel closure (field args "zoomLevel")) w))
  /\ (name (function action) = "changeMapCenter" ->
       JSON_parse (arguments (function action)) = inr args ->
       nullish args = false ->
       printable (field args "latitude") = true ->
       printable (field args "longitude") = true ->
       executeAction closure action outputs w =
         (inr (outputs ++ [{| tool_call_id := call_id action;
                              output := "Map centered set successfully." |}]),
          run (changeMapCenter closure (field args "latitude")
                 (field args "longitude") (field args "zoomLevel")) w))
  /\ (name (function action) = "addLocationsToMap" ->
       JSON_parse (arguments (function action)) = inr args ->
       nullish args = false ->
       measurable (field args "markers") = true ->
       executeAction closure action outputs w =
         (inr (outputs ++ [{| tool_call_id := call_id action;
                              output := "Map locations marked successfully." |}]),
          run (addLocationsToMap closure (field args "markers")
                 (field args "centerLatitude") (field args "centerLongitude")
                 (field args "zoomLevel")) w))
  /\ (~ In (name (function action)) handled_names ->
       executeAction closure action outputs w =
         (match JSON_parse (arguments (function action)) with
          | inr _ => inr outputs
          | inl e => inl e
          end, w)).
Proof.
  intros Htype.
  unfold executeAction. rewrite Htype.
  cbn [String.eqb Ascii.eqb Bool.eqb].
  repeat split.
  - intros Hname Hparse Hargs. rewrite Hname, Hparse.
    cbn [String.eqb Ascii.eqb Bool.eqb lift bind].
    rewrite (get_field _ _ Hargs). reflexivity.
  - intros Hname Hparse Hargs Hla Hlo. rewrite Hname, Hparse.
    cbn [String.eqb Ascii.eqb Bool.eqb lift bind].
    rewrite !(get_field _ _ Hargs). cbn [bind lift].
    unfold changeMapCenter, run, bind.
    rewrite (ToString_printable _ Hla), (ToString_printable _ Hlo). reflexivity.
  - intros Hname Hparse Hargs Hmarkers. rewrite Hname, Hparse.
    cbn [String.eqb Ascii.eqb Bool.eqb lift bind].
    rewrite !(get_field _ _ Hargs). cbn [bind lift].
    destruct (get_length_measurable _ Hmarkers) as [Hlen Hstr].
    unfold addLocationsToMap, run, bind, lift. rewrite Hlen. cbn beta iota.
    rewrite Hstr. reflexivity.
  - intros Hnot. unfold handled_names in Hnot. cbn [In] in Hnot.
    rewrite !eqb_name_neq by (intros E; apply Hnot; rewrite E; auto).
    unfold bind, lift.
    destruct (JSON_parse (arguments (function action))); reflexivity.
Qed.

Lemma executeAction_completes closure action outputs w :
  completes action = true ->
  fst (executeAction closure action outputs w) =
    inr (outputs ++ if handled action then [output_for action] else []).
Proof.
  unfold completes, handled, output_for, success_string, executeAction,
    handled_names, includes.
  destruct (String.eqb (type action) "function"); cbn [andb existsb orb].
  2:{ intros _. cbn. rewrite app_nil_r. reflexivity. }
  destruct (arguments (function action)) as [|args]; [discriminate|].
  cbn [JSON_parse lift bind].
  destruct (String.eqb (name (function action)) "changeMapZoomLevel") eqn:Ez.
  { apply String.eqb_eq in Ez. rewrite Ez. cbn [String.eqb Ascii.eqb Bool.eqb orb].
    intros H. apply negb_true_iff in H. rewrite (get_field _ _ H). reflexivity. }
  destruct (String.eqb (name (function action)) "changeMapCenter") eqn:Ec.
  { apply String.eqb_eq in Ec. rewrite Ec. cbn [String.eqb Ascii.eqb Bool.eqb orb].
    intros H. apply andb_true_iff in H. destruct H as [H Hlo].
    apply andb_true_iff in H. destruct H as [H Hla].
    apply negb_true_iff in H. rewrite !(get_field _ _ H). cbn [lift bind].
    unfold changeMapCenter, bind.
    rewrite (ToString_printable _ Hla), (ToString_printable _ Hlo). reflexivity. }
  destruct (String.eqb (name (function action)) "addLocationsToMap") eqn:Ea.
  { intros H. apply andb_true_iff in H. destruct H as [H1 H2].
    apply negb_true_iff in H1. rewrite !(get_field _ _ H1). cbn [lift bind].
    destruct (get_length_measurable _ H2) as [Hlen Hstr].
    unfold addLocationsToMap, bind, lift. rewrite Hlen. cbn beta iota.
    rewrite Hstr. reflexivity. }
  cbn [orb]. intros _. cbn. rewrite app_nil_r. reflexivity.
Qed.

(** A tool call that does not complete raises, and leaves the world as it
    found it. *)
Lemma executeAction_fails closure action outputs w :
  completes action = false ->
  exists e, executeAction closure action outputs w = (inl e, w).
Proof.
  unfold completes, executeAction.
  destruct (String.eqb (type action) "function"); [|discriminate].
  destruct (arguments (function action)) as [|args].
  { intros _. eexists. reflexivity. }
  cbn [JSON_parse lift bind].
  destruct (String.eqb (name (function action)) "changeMapZoomLevel").
  { intros H. apply negb_false_iff in H. exists TypeError.
    destruct args; try discriminate; reflexivity. }
  destruct (String.eqb (name (function action)) "changeMapCenter").
  { intros H. exists TypeError. destruct (nullish args) eqn:Hn.
    - destruct args; try discriminate; reflexivity.
    - rewrite !(get_field _ _ Hn). cbn [lift bind negb andb] in *.
      unfold changeMapCenter, bind, lift, ToString.
      destruct (printable (field args "latitude")); [|reflexivity].
      cbn [andb] in H. rewrite H. reflexivity. }
  destruct (String.eqb (name (function action)) "addLocationsToMap");
    [|discriminate].
  intros H. exists TypeError. destruct (nullish args) eqn:Hn.
  - destruct args; try discriminate; reflexivity.
  - rewrite !(get_field _ _ Hn). cbn [lift bind negb andb] in *.
    unfold addLocationsToMap, bind, lift.
    destruct (get_length_unmeasurable _ H) as [Hlen|[Hlen Hstr]]; rewrite Hlen;
      [reflexivity|].
    cbn beta iota. rewrite Hstr. reflexivity.
Qed.

Lemma executeActions_completes closure actions : forall outputs w,
  Forall (fun a => completes a = true) actions ->
  fst (executeActions closure actions outputs w) =
    inr (outputs ++ map output_for (filter handled actions)).
Proof.
  induction actions as [|a rest IH]; intros outputs w Hall.
  - cbn. rewrite app_nil_r. reflexivity.
  - inversion Hall as [|? ? Ha Hrest]; subst.
    cbn [executeActions]. unfold bind.
    pose proof (executeAction_completes closure a outputs w Ha) as E.
    destruct (executeAction closure a outputs w) as [[e|outputs'] w1]; cbn [fst] in E.
    + discriminate.
    + injection E as ->. rewrite (IH _ _ Hrest). cbn [filter].
      destruct (handled a); cbn [map]; rewrite <- app_assoc; reflexivity.
Qed.

(** C8 (amended): when no tool call of the run raises,
    [executeAssistantActions] returns one output for each tool call of type
    "function" with one of the three names, in the order of [tool_calls],
    and nothing else; a tool call of another type, or of an unknown name
    with arguments that parse, is passed over with no output and no change
    of state; a run whose [required_action] is null yields the empty
    list.  A call raises exactly when [completes] is false of it: its
    arguments are not JSON, or it has one of the three names and its
    arguments are [null], or its latitude or longitude ("changeMapCenter")
    or the length of its markers ("addLocationsToMap") cannot be read and
    converted to a string. *)
Theorem executeAssistantActions_outputs (closure : State) (r : Run) (w : World) :
  (Forall (fun a => completes a = true) (actions_of r) ->
     fst (executeAssistantActions closure r w) =
       inr (map output_for (filter handled (actions_of r))))
  /\ (forall a outputs w',
        completes a = true -> handled a = false ->
        executeAction closure a outputs w' = (inr outputs, w'))
  /\ (required_action r = None ->
        executeAssistantActions closure r w = (inr [], w))
  /\ (forall a outputs w',
        completes a = false ->
        exists e, executeAction closure a outputs w' = (inl e, w')).
Proof.
  split; [|split; [|split]].
  - intros Hall. unfold executeAssistantActions, actions_of in *.
    destruct (required_action r) as [ra|].
    + rewrite (executeActions_completes _ _ _ _ Hall). reflexivity.
    + reflexivity.
  - intros a outputs w'.
    unfold completes, handled, executeAction, handled_names, includes.
    destruct (String.eqb (type a) "function"); cbn [andb existsb orb]; [|reflexivity].
    destruct (arguments (function a)) as [|args]; [discriminate|].
    cbn [JSON_parse lift bind].
    destruct (String.eqb (name (function a)) "changeMapZoomLevel"); [discriminate 2|].
    destruct (String.eqb (name (function a)) "changeMapCenter"); [discriminate 2|].
    destruct (String.eqb (name (function a)) "addLocationsToMap").
    { cbn [orb]. intros _ H. discriminate H. }
    reflexivity.
  - intros Hnone. unfold executeAssistantActions. rewrite Hnone. reflexivity.
  - intros a outputs w'. apply executeAction_fails.
Qed.

(** *** Submitting the outputs *)

Lemma requires_action_is_active (r : Run) :
  status r = "requires_action" -> isRunActive (Some r) = true.
Proof. intros H. unfold isRunActive. rewrite H. reflexivity. Qed.

(** C1 (amended): for a run [r] received by [pollCurrentRunStatus] or by
    [fetchOpenRun], tool outputs are submitted exactly when the status of
    [r] is "requires_action" and [executeAssistantActions] returns; what is
    submitted then is what it returned, for the id of [r].  When the status
    is "requires_action" the tool actions are executed, also when one of
    them raises: then the error is caught (the callback returns), it is
    logged, and nothing is submitted.  For a run in any other status no
    tool action is executed, nothing is submitted and nothing is logged. *)
Theorem outputs_submitted_when_requires_action
    (closure : State) (r : Run) (w : World) :
  let polled := run (pollCurrentRunStatus_settled closure (inr r)) w in
  let opened := run (fetchOpenRun_settled closure (inr (Some r))) w in
  let acted := executeAssistantActions closure r (run (setCurrentRun r) w) in
  submissions polled = submissions w ++ submitted_for r (fst acted)
  /\ submissions opened = submissions w ++ submitted_for r (fst acted)
  /\ fst (pollCurrentRunStatus_settled closure (inr r) w) = inr tt
  /\ fst (fetchOpenRun_settled closure (inr (Some r)) w) = inr tt
  /\ errors polled = errors w ++ logged_for r (fst acted)
  /\ errors opened = errors w ++ logged_for r (fst acted)
  /\ (status r = "requires_action" ->
      map_state (state polled) = map_state (state (snd acted))
      /\ messages (state polled) = messages (state (snd acted))
      /\ map_state (state opened) = map_state (state (snd acted))
      /\ messages (state opened) = messages (state (snd acted)))
  /\ (status r <> "requires_action" ->
      map_state (state polled) = map_state (state w)
      /\ messages (state polled) = messages (state w)
      /\ map_state (state opened) = map_state (state w)
      /\ messages (state opened) = messages (state w)).
Proof.
  cbv zeta.
  unfold pollCurrentRunStatus_settled, fetchOpenRun_settled, settle,
    pollCurrentRunStatus_then, fetchOpenRun_then, submitted_for, logged_for.
  destruct (String.eqb (status r) "requires_action") eqn:Hstatus.
  - apply String.eqb_eq in Hstatus.
    rewrite (requires_action_is_active _ Hstatus). cbn [negb].
    pose proof (framed_executeAssistantActions closure r (run (setCurrentRun r) w)) as F.
    unfold run, try_catch, bind in *. cbn [setCurrentRun snd fst] in *.
    destruct (executeAssistantActions closure r
                (with_runChanged true
                   (with_state (with_currentRun (Some r) (state w)) w)))
      as [[e|outputs] w'] eqn:Hacted; cbn [snd fst] in *.
    + unfold submissions, requests. cbn. rewrite (frame_pending _ _ F). cbn.
      rewrite (frame_errors _ _ F). cbn.
      rewrite app_nil_r. repeat split; congruence.
    + unfold submissions, requests. cbn. rewrite (frame_pending _ _ F). cbn.
      rewrite (frame_errors _ _ F). cbn.
      rewrite map_app, filter_app, app_nil_r. cbn. repeat split; congruence.
  - apply String.eqb_neq in Hstatus.
    destruct (isRunActive (Some r)); cbn; rewrite ?app_nil_r;
      repeat split; try congruence.
    unfold submissions, requests. cbn.
    rewrite map_app, filter_app. cbn. apply app_nil_r.
Qed.

(** C6: for each request of the component a failure is caught and logged
    and nothing else happens.  After the rejection the callback has
    returned, the error is the last entry of the log, and the state, the
    requests in flight (so nothing is sent again) and the timers are as
    they were.  Inside [hydrateMessages] the next link of the chain then
    runs from that world as it does after a success. *)
Theorem network_failures_are_logged_only (closure : State) (e : Error) (w : World) :
  fetchMessages_settled closure (inl e) w = (inr tt, logged e w)
  /\ fetchOpenRun_settled closure (inl e) w = (inr tt, logged e w)
  /\ pollCurrentRunStatus_settled closure (inl e) w = (inr tt, logged e w)
  /\ handlePromptSubmission_settled closure (inl e) w = (inr tt, logged e w)
  /\ submitFunctionOutputs_settled (inl e) w = (inr tt, logged e w)
  /\ chained Hydrating (fetchMessages_settled closure (inl e))
       hydrate_after_fetchMessages w
     = hydrate_after_fetchMessages (logged e w)
  /\ chained Hydrating (fetchOpenRun_settled closure (inl e))
       hydrate_after_fetchOpenRun w
     = hydrate_after_fetchOpenRun (logged e w)
  /\ state (logged e w) = state w
  /\ pending (logged e w) = pending w
  /\ timers (logged e w) = timers w
  /\ errors (logged e w) = errors w ++ [e].
Proof. repeat split. Qed.

(** In the event loop: the rejected request leaves the list of requests in
    flight and nothing takes its place. *)
Lemma rejected_request_is_dropped (w : World) (n : nat) (p : Pending) (e : Error) :
  nth_error (pending w) n = Some p ->
  chain p = Standalone ->
  step (Settle n (Rejected e)) w =
    Some (with_runChanged false
            (logged e (with_pending (remove_nth n (pending w)) w))).
Proof.
  intros Hp Hc. unfold step. rewrite Hp. unfold deliver. rewrite Hc.
  destruct (request p); reflexivity.
Qed.

(** *** Merging the fetched messages *)

Lemma insert_In m x l : In x (insert_by_created_at m l) <-> x = m \/ In x l.
Proof.
  induction l as [|y l IH]; cbn.
  - intuition.
  - destruct (created_at m <=? created_at y)%Z; cbn; [intuition|].
    rewrite IH. intuition.
Qed.

Lemma insert_ascending m l : ascending l -> ascending (insert_by_created_at m l).
Proof.
  unfold ascending. induction l as [|y l IH]; intros Hl; cbn.
  - constructor; constructor.
  - destruct (Z.leb_spec (created_at m) (created_at y)) as [Hle|Hgt].
    + constructor; [exact Hl|]. constructor; [exact Hle|].
      apply StronglySorted_inv in Hl. destruct Hl as [_ Hall].
      eapply Forall_impl; [|exact Hall]. cbn. intros; lia.
    + apply StronglySorted_inv in Hl. destruct Hl as [Hl Hall].
      constructor; [apply IH; exact Hl|].
      apply Forall_forall. intros x Hx. apply insert_In in Hx.
      destruct Hx as [->|Hx]; [lia|].
      rewrite Forall_forall in Hall. apply Hall. exact Hx.
Qed.

Lemma sort_ascending l : ascending (sort_by_created_at l).
Proof.
  induction l as [|m l IH]; cbn.
  - constructor.
  - apply insert_ascending. exact IH.
Qed.

Lemma insert_Permutation m l : Permutation (insert_by_created_at m l) (m :: l).
Proof.
  induction l as [|y l IH]; cbn.
  - reflexivity.
  - destruct (created_at m <=? created_at y)%Z; [reflexivity|].
    rewrite IH. apply perm_swap.
Qed.

Lemma sort_Permutation l : Permutation (sort_by_created_at l) l.
Proof.
  induction l as [|m l IH]; cbn.
  - reflexivity.
  - rewrite insert_Permutation. constructor. exact IH.
Qed.

Lemma occurrences_Permutation i l l' :
  Permutation l l' -> occurrences i l = occurrences i l'.
Proof.
  unfold occurrences. induction 1; cbn.
  - reflexivity.
  - destruct (String.eqb (msg_id x) i); cbn; congruence.
  - destruct (String.eqb (msg_id x) i), (String.eqb (msg_id y) i); reflexivity.
  - congruence.
Qed.

Lemma occurrences_app i l l' :
  occurrences i (l ++ l') = occurrences i l + occurrences i l'.
Proof. unfold occurrences. rewrite filter_app, length_app. reflexivity. Qed.

Lemma occurrences_zero i l : ~ In i (ids l) -> occurrences i l = 0.
Proof.
  unfold occurrences, ids. induction l as [|m l IH]; cbn; intros H; [reflexivity|].
  destruct (String.eqb_spec (msg_id m) i) as [E|E].
  - exfalso. apply H. left. exact E.
  - apply IH. intros Hin. apply H. right. exact Hin.
Qed.

Lemma known_spec (known : list Message) (msg : Message) :
  existsb (fun m => String.eqb (msg_id m) (msg_id msg)) known = true
  <-> In (msg_id msg) (ids known).
Proof.
  unfold ids. rewrite existsb_exists, in_map_iff. split.
  - intros [m [Hin E]]. apply String.eqb_eq in E. eauto.
  - intros [m [E Hin]]. exists m. split; [exact Hin|]. apply String.eqb_eq. exact E.
Qed.

Lemma missing_In known fetched m :
  In m (missingMessages known fetched) <->
  In m fetched /\ ~ In (msg_id m) (ids known).
Proof.
  unfold missingMessages. rewrite filter_In, negb_true_iff.
  rewrite <- known_spec. destruct (existsb _ known); intuition congruence.
Qed.

Lemma missing_nil fetched : missingMessages [] fetched = fetched.
Proof.
  unfold missingMessages. induction fetched as [|m l IH].
  - reflexivity.
  - cbn [filter existsb negb]. f_equal. exact IH.
Qed.

Lemma missing_NoDup known fetched :
  NoDup (ids fetched) -> NoDup (ids (missingMessages known fetched)).
Proof.
  unfold ids, missingMessages. induction fetched as [|m l IH]; cbn; intros H.
  - constructor.
  - inversion H as [|? ? Hnot Hl]; subst.
    destruct (negb _); cbn; [|apply IH; exact Hl].
    constructor; [|apply IH; exact Hl].
    intros Hin. apply Hnot. apply in_map_iff in Hin. destruct Hin as [x [E Hx]].
    apply filter_In in Hx. apply in_map_iff. exists x. tauto.
Qed.

Lemma merged_NoDup known fetched :
  NoDup (ids known) -> NoDup (ids fetched) ->
  NoDup (ids (known ++ missingMessages known fetched)).
Proof.
  intros Hk Hf. unfold ids. rewrite map_app.
  apply NoDup_app.
  - exact Hk.
  - apply missing_NoDup. exact Hf.
  - intros i Hi Hm. apply in_map_iff in Hm. destruct Hm as [m [E Hm]].
    apply missing_In in Hm. destruct Hm as [_ Hnot]. apply Hnot.
    rewrite E. exact Hi.
Qed.

Lemma sort_NoDup l : NoDup (ids l) -> NoDup (ids (sort_by_created_at l)).
Proof.
  intros H. unfold ids. eapply Permutation_NoDup; [|exact H].
  apply Permutation_map. symmetry. apply sort_Permutation.
Qed.

Lemma fetchMessages_merges closure fetched w :
  messages (state (run (fetchMessages_settled closure (inr (Some fetched))) w))
  = sort_by_created_at
      (messages closure ++ missingMessages (messages closure) fetched).
Proof. reflexivity. Qed.

(** *** The callbacks of settled requests *)

Ltac calm_leaf :=
  first
    [ solve [intros ?; constructor; reflexivity]
    | solve [intros ?; apply frame_undisturbed, framed_executeAssistantActions]
    | solve [intros ?; constructor; try reflexivity;
             unfold polls_in_flight, requests, run, axios; cbn;
             rewrite map_app, filter_app, length_app; cbn; lia] ].

Ltac calm := respects_by undisturbed_refl undisturbed_trans calm_leaf.

Ltac first_render_leaf :=
  first
    [ solve [intros ? H; exact H]
    | solve [intros ?; apply frame_keeps_first_render, framed_executeAssistantActions]
    | solve [intros ? H; cbn; apply Forall_app; split;
             [exact H | constructor; [|constructor]];
             intros E; first [discriminate E | reflexivity]] ].

Ltac first_render :=
  respects_by keeps_first_render_refl keeps_first_render_trans first_render_leaf.

Ltac open_callbacks :=
  unfold deliver, chained, fetchMessages_settled, fetchOpenRun_settled,
    pollCurrentRunStatus_settled, handlePromptSubmission_settled,
    submitFunctionOutputs_settled, settle, fetchMessages_then, fetchOpenRun_then,
    pollCurrentRunStatus_then, handlePromptSubmission_then,
    hydrate_after_fetchMessages, hydrate_after_fetchOpenRun,
    fetchMessages, fetchOpenRun, submitFunctionOutputs in *.

Lemma deliver_cases (p : Pending) (r : Settled) (callback : M unit)
    (P : M unit -> Prop) :
  (forall r', P (chained (chain p) (fetchMessages_settled (env p) r')
                   hydrate_after_fetchMessages)) ->
  (forall r', P (chained (chain p) (fetchOpenRun_settled (env p) r')
                   hydrate_after_fetchOpenRun)) ->
  (forall r', P (pollCurrentRunStatus_settled (env p) r')) ->
  (forall r', P (handlePromptSubmission_settled (env p) r')) ->
  (forall r', P (submitFunctionOutputs_settled r')) ->
  deliver p r = Some callback -> P callback.
Proof.
  intros H1 H2 H3 H4 H5. unfold deliver.
  destruct (request p).
  - destruct (messages_of r); [|discriminate]. intros H. injection H as <-. apply H1.
  - destruct (runs_of r); [|discriminate]. intros H. injection H as <-. apply H2.
  - destruct (run_of r); [|discriminate]. intros H. injection H as <-. apply H3.
  - destruct (message_of r); [|discriminate]. intros H. injection H as <-. apply H4.
  - destruct (outputs_of r); [|discriminate]. intros H. injection H as <-. apply H5.
Qed.

Lemma calm_deliver p r callback :
  deliver p r = Some callback -> respects undisturbed callback.
Proof.
  apply deliver_cases; intros r'; open_callbacks; calm.
Qed.

Lemma first_render_deliver p r callback :
  deliver p r = Some callback -> respects keeps_first_render callback.
Proof.
  apply deliver_cases; intros r'; open_callbacks; first_render.
Qed.

(** *** The render after a callback *)

Lemma truthy_active (o : option Run) : truthy o && isRunActive o = isRunActive o.
Proof. destruct o; reflexivity. Qed.

Lemma isRunActive_spec (o : option Run) :
  isRunActive o = true <-> exists r, o = Some r /\ In (status r) active_statuses.
Proof.
  destruct o as [r|]; unfold isRunActive.
  - unfold includes. rewrite existsb_exists. split.
    + intros [x [Hin E]]. apply String.eqb_eq in E. subst x. eauto.
    + intros [r' [E Hin]]. injection E as <-. exists (status r).
      split; [exact Hin | apply String.eqb_refl].
  - split; [discriminate | intros [r [E _]]; discriminate].
Qed.

Lemma pollRunStatus_timers (closure : State) (w : World) :
  timers (run (pollRunStatus closure) w) =
    timers w ++
      (if isRunActive (currentRun closure) then
         [{| timeoutId := nextTimeoutId w; due := (now w + poll_delay)%Z;
             timer_env := closure |}]
       else []).
Proof.
  unfold pollRunStatus, run. rewrite truthy_active.
  destruct (isRunActive (currentRun closure)); cbn.
  - reflexivity.
  - rewrite app_nil_r. reflexivity.
Qed.

Lemma render_spec (w : World) :
  render w =
    if armed w then
      with_nextTimeoutId (S (nextTimeoutId w))
        (with_timers (timers w ++ [poll_timer w]) (with_runChanged false w))
    else with_runChanged false w.
Proof.
  unfold render, armed, useEffect_pollRunStatus, pollRunStatus, run.
  destruct w as [s p t e n k c]. cbn [runChanged state].
  destruct c; cbn [andb].
  - unfold bind. cbn [state]. rewrite truthy_active.
    destruct (isRunActive (currentRun s)); reflexivity.
  - reflexivity.
Qed.

Lemma turn_spec (callback : M unit) (w : World) :
  let w1 := run callback (with_runChanged false w) in
  turn callback w =
    if armed w1 then
      with_nextTimeoutId (S (nextTimeoutId w1))
        (with_timers (timers w1 ++ [poll_timer w1]) (with_runChanged false w1))
    else with_runChanged false w1.
Proof. cbv zeta. unfold turn. apply render_spec. Qed.

Lemma turn_pending (callback : M unit) (w : World) :
  pending (turn callback w) = pending (run callback (with_runChanged false w)).
Proof. rewrite turn_spec. destruct (armed _); reflexivity. Qed.

Lemma turn_state (callback : M unit) (w : World) :
  state (turn callback w) = state (run callback (with_runChanged false w)).
Proof. rewrite turn_spec. destruct (armed _); reflexivity. Qed.

(** After a callback that leaves the timers alone, the only new timer is
    the one of the render. *)
Lemma turn_undisturbed (callback : M unit) (w : World) :
  respects undisturbed callback ->
  let w1 := run callback (with_runChanged false w) in
  timers (turn callback w) = timers w ++ (if armed w1 then [poll_timer w1] else [])
  /\ nextTimeoutId (turn callback w) = nextTimeoutId w + (if armed w1 then 1 else 0)
  /\ polls_in_flight (turn callback w) = polls_in_flight w
  /\ now w1 = now w
  /\ nextTimeoutId w1 = nextTimeoutId w.
Proof.
  intros Hcalm. cbv zeta. rewrite turn_spec.
  destruct (Hcalm (with_runChanged false w)) as [Ht Hn Hnow Hp].
  cbn [timers nextTimeoutId now with_runChanged] in Ht, Hn, Hnow.
  change (polls_in_flight (with_runChanged false w)) with (polls_in_flight w) in Hp.
  destruct (armed _); cbn.
  - rewrite Ht, Hn. repeat split; try lia; assumption.
  - rewrite Ht, Hn, app_nil_r. repeat split; try lia; assumption.
Qed.

(** A response that brings no active run does not arm the render. *)
Lemma deliver_unarmed p data callback w :
  deliver p (Fulfilled data) = Some callback ->
  isRunActive (run_carried data) = false ->
  armed (run callback (with_runChanged false w)) = false.
Proof.
  unfold deliver, armed. intros H Hrun.
  destruct (request p), data; cbn in H; try discriminate; injection H as <-;
    cbn [run_carried] in Hrun.
  - destruct (chain p), newMessages; reflexivity.
  - unfold fetchOpenRun_settled, settle, fetchOpenRun_then.
    destruct run0 as [r|]; [rewrite Hrun|]; destruct (chain p); reflexivity.
  - unfold pollCurrentRunStatus_settled, settle, pollCurrentRunStatus_then.
    rewrite Hrun. cbn. exact Hrun.
  - cbn. exact Hrun.
  - cbn. exact Hrun.
Qed.

Lemma deliver_rejected_unarmed p e callback w :
  deliver p (Rejected e) = Some callback ->
  armed (run callback (with_runChanged false w)) = false.
Proof.
  unfold deliver, armed. intros H.
  destruct (request p); cbn in H; injection H as <-;
    try destruct (chain p); reflexivity.
Qed.

Lemma settle_unarmed n r w p callback :
  carries_active_run (Settle n r) = false ->
  deliver p r = Some callback ->
  armed (run callback (with_runChanged false w)) = false.
Proof.
  intros Hquiet Hd. destruct r as [data|e].
  - eapply deliver_unarmed; eassumption.
  - eapply deliver_rejected_unarmed; eassumption.
Qed.


(** *** Lists with one element taken out *)

Lemma remove_nth_split {A} (l1 l2 : list A) (x : A) :
  remove_nth (List.length l1) (l1 ++ x :: l2) = l1 ++ l2.
Proof.
  unfold remove_nth. induction l1 as [|a l1 IH].
  - reflexivity.
  - cbn [List.length firstn skipn app] in *. f_equal. exact IH.
Qed.



Lemma Forall_remove_nth {A} (P : A -> Prop) (l : list A) (n : nat) :
  Forall P l -> Forall P (remove_nth n l).
Proof.
  unfold remove_nth. intros H. revert n.
  induction H as [|a l Ha Hl IH]; intros [|n]; cbn [firstn skipn app].
  - constructor.
  - constructor.
  - exact Hl.
  - constructor; [exact Ha | apply IH].
Qed.


(** *** One step of the event loop *)

Lemma step_Fire (n : nat) (w w' : World) :
  step (Fire n) w = Some w' ->
  exists t, nth_error (timers w) n = Some t
    /\ (due t <= now w)%Z
    /\ timers w' = remove_nth n (timers w)
    /\ nextTimeoutId w' = nextTimeoutId w
    /\ polls_in_flight w' <= S (polls_in_flight w)
    /\ (pending w' = pending w
        \/ exists r, pending w' =
             pending w ++ [{| request := GetRun (run_id r); env := timer_env t;
                              chain := Standalone |}]).
Proof.
  cbn [step]. destruct (nth_error (timers w) n) as [t|] eqn:Ht; [|discriminate].
  destruct (Z.leb_spec (due t) (now w)) as [Hdue|]; [|discriminate].
  intros H. injection H as <-. exists t.
  unfold turn, pollCurrentRunStatus.
  destruct (currentRun (timer_env t)) as [r|]; cbn.
  - repeat split; try assumption; [|right; exists r; reflexivity].
    unfold polls_in_flight, requests. cbn.
    rewrite map_app, filter_app, length_app. cbn. lia.
  - repeat split; try assumption; [|left; reflexivity].
    unfold polls_in_flight, requests. cbn. lia.
Qed.

Lemma step_Settle (n : nat) (r : Settled) (w w' : World) :
  step (Settle n r) w = Some w' ->
  exists p callback,
    nth_error (pending w) n = Some p
    /\ deliver p r = Some callback
    /\ w' = turn callback (with_pending (remove_nth n (pending w)) w).
Proof.
  cbn [step]. destruct (nth_error (pending w) n) as [p|]; [|discriminate].
  destruct (deliver p r) as [callback|] eqn:Hd; [|discriminate].
  intros H. injection H as <-. eauto.
Qed.

(** A step that is not a response bringing an active run sets no timer. *)
Lemma step_sets_no_timer (ev : Event) (w w' : World) :
  step ev w = Some w' ->
  carries_active_run ev = false ->
  nextTimeoutId w' = nextTimeoutId w.
Proof.
  intros Hstep Hquiet. destruct ev as [ms|n|n r|text|].
  - cbn in Hstep. destruct (0 <=? ms)%Z; [|discriminate].
    injection Hstep as <-. reflexivity.
  - apply step_Fire in Hstep. destruct Hstep as [t H]. tauto.
  - apply step_Settle in Hstep. destruct Hstep as [p [callback [Hp [Hd ->]]]].
    destruct (turn_undisturbed callback (with_pending (remove_nth n (pending w)) w)
                (calm_deliver _ _ _ Hd)) as [_ [Hn _]].
    rewrite Hn. rewrite (settle_unarmed _ _ _ _ _ Hquiet Hd). cbn. lia.
  - cbn in Hstep. destruct (input_enabled (state w)); [|discriminate].
    injection Hstep as <-. reflexivity.
  - cbn in Hstep. destruct (input_enabled (state w)); [|discriminate].
    injection Hstep as <-. reflexivity.
Qed.

Lemma step_sets_at_most_one_timer (ev : Event) (w w' : World) :
  step ev w = Some w' ->
  nextTimeoutId w <= nextTimeoutId w' <= S (nextTimeoutId w).
Proof.
  intros Hstep. destruct (carries_active_run ev) eqn:Hc.
  - destruct ev as [ms|n|n r|text|]; try discriminate.
    apply step_Settle in Hstep. destruct Hstep as [p [callback [Hp [Hd ->]]]].
    destruct (turn_undisturbed callback (with_pending (remove_nth n (pending w)) w)
                (calm_deliver _ _ _ Hd)) as [_ [Hn _]].
    rewrite Hn. cbn [nextTimeoutId with_pending]. destruct (armed _); lia.
  - rewrite (step_sets_no_timer _ _ _ Hstep Hc). lia.
Qed.

Lemma exec_sets_no_timer (evs : list Event) : forall w w',
  exec evs w = Some w' ->
  Forall (fun ev => carries_active_run ev = false) evs ->
  nextTimeoutId w' = nextTimeoutId w.
Proof.
  induction evs as [|ev rest IH]; intros w w' Hexec Hall.
  - injection Hexec as <-. reflexivity.
  - cbn [exec] in Hexec. destruct (step ev w) as [w1|] eqn:Hstep; [|discriminate].
    inversion Hall as [|? ? Hev Hrest]; subst.
    rewrite (IH _ _ Hexec Hrest). eapply step_sets_no_timer; eassumption.
Qed.



(** A timer leaves the list only by firing: no step clears one.  A step
    adds at most the one timer of its render, due [poll_delay] after the
    step, whatever was answered or had failed before. *)
Lemma step_timers (ev : Event) (w w' : World) :
  step ev w = Some w' ->
  exists kept added,
    timers w' = kept ++ added
    /\ (kept = timers w \/ exists n, ev = Fire n /\ kept = remove_nth n (timers w))
    /\ (added = [] \/
        added = [{| timeoutId := nextTimeoutId w; due := (now w + poll_delay)%Z;
                    timer_env := state w' |}]).
Proof.
  intros Hstep. destruct ev as [ms|n|n r|text|].
  - cbn in Hstep. destruct (0 <=? ms)%Z; [|discriminate].
    injection Hstep as <-. exists (timers w), []. rewrite app_nil_r. auto.
  - apply step_Fire in Hstep. destruct Hstep as [t [Ht [_ [Htimers _]]]].
    exists (remove_nth n (timers w)), []. rewrite app_nil_r.
    split; [exact Htimers|]. split; [right; exists n; auto | left; reflexivity].
  - apply step_Settle in Hstep. destruct Hstep as [p [callback [Hp [Hd ->]]]].
    destruct (turn_undisturbed callback (with_pending (remove_nth n (pending w)) w)
                (calm_deliver _ _ _ Hd)) as [Ht [_ [_ [Hnow Hn]]]].
    rewrite Ht. exists (timers w). eexists. split; [reflexivity|]. split; [auto|].
    destruct (armed _); [right|left; reflexivity].
    unfold poll_timer. rewrite Hn, Hnow, turn_state. reflexivity.
  - cbn in Hstep. destruct (input_enabled (state w)); [|discriminate].
    injection Hstep as <-. exists (timers w), []. rewrite app_nil_r. auto.
  - cbn in Hstep. destruct (input_enabled (state w)); [|discriminate].
    injection Hstep as <-. exists (timers w), []. rewrite app_nil_r. auto.
Qed.

(** *** Every fetch of the messages runs the callback of the first render *)

Lemma step_first_render (ev : Event) (w w' : World) :
  step ev w = Some w' ->
  Forall first_render (pending w) -> Forall first_render (pending w').
Proof.
  intros Hstep Hall. destruct ev as [ms|n|n r|text|].
  - cbn in Hstep. destruct (0 <=? ms)%Z; [|discriminate].
    injection Hstep as <-. exact Hall.
  - apply step_Fire in Hstep.
    destruct Hstep as [t [_ [_ [_ [_ [_ [Hp|[r Hp]]]]]]]]; rewrite Hp.
    + exact Hall.
    + apply Forall_app. split; [exact Hall|].
      constructor; [|constructor]. intros E. discriminate E.
  - apply step_Settle in Hstep. destruct Hstep as [p [callback [Hp [Hd ->]]]].
    rewrite turn_pending.
    apply (first_render_deliver _ _ _ Hd). cbn.
    apply Forall_remove_nth. exact Hall.
  - cbn in Hstep. destruct (input_enabled (state w)); [|discriminate].
    injection Hstep as <-. exact Hall.
  - cbn in Hstep. destruct (input_enabled (state w)); [|discriminate].
    injection Hstep as <-. cbn. apply Forall_app. split; [exact Hall|].
    constructor; [|constructor]. intros E. discriminate E.
Qed.

Lemma exec_first_render (evs : list Event) : forall w w',
  exec evs w = Some w' ->
  Forall first_render (pending w) -> Forall first_render (pending w').
Proof.
  induction evs as [|ev rest IH]; intros w w' Hexec Hall.
  - injection Hexec as <-. exact Hall.
  - cbn [exec] in Hexec. destruct (step ev w) as [w1|] eqn:Hstep; [|discriminate].
    apply (IH _ _ Hexec). eapply step_first_render; eassumption.
Qed.

Lemma reachable_first_render (w : World) :
  reachable w -> Forall first_render (pending w).
Proof.
  intros [evs Hexec]. apply (exec_first_render _ _ _ Hexec).
  constructor; [|constructor]. intros _. reflexivity.
Qed.

Lemma fetchMessages_chain_merges c closure fetched w :
  messages
    (state (run (chained c (fetchMessages_settled closure (inr (Some fetched)))
                   hydrate_after_fetchMessages) w))
  = sort_by_created_at
      (messages closure ++ missingMessages (messages closure) fetched).
Proof. destruct c; reflexivity. Qed.

(** C10 (amended): after every successful [fetchMessages] call whose
    response carries [newMessages], the messages list is sorted in
    ascending order of [created_at], and a fetched message whose id already
    occurs in the list the callback holds is not added again, so ids stay
    pairwise distinct whenever that list and [newMessages] each have
    distinct ids.  A response without [newMessages] leaves the list as it
    was.  In the running component the callback is always the one of the
    first render, which holds the empty list: the list after the call is
    the sorted [newMessages]. *)
Theorem fetchMessages_sorts_and_keeps_ids_distinct :
  (forall (closure : State) (fetched : list Message) (w : World),
     let after :=
       messages (state (run (fetchMessages_settled closure (inr (Some fetched))) w)) in
     ascending after
     /\ (forall i, In i (ids (messages closure)) ->
           occurrences i after = occurrences i (messages closure))
     /\ (NoDup (ids (messages closure)) -> NoDup (ids fetched) -> NoDup (ids after)))
  /\ (forall (closure : State) (w : World),
        messages (state (run (fetchMessages_settled closure (inr None)) w))
        = messages (state w))
  /\ (forall (w : World) (n : nat) (p : Pending) (fetched : list Message),
        reachable w ->
        nth_error (pending w) n = Some p ->
        request p = GetMessages ->
        exists w',
          step (Settle n (Fulfilled (MessagesData (Some fetched)))) w = Some w'
          /\ messages (state w') = sort_by_created_at fetched
          /\ ascending (messages (state w'))
          /\ (NoDup (ids fetched) -> NoDup (ids (messages (state w'))))).
Proof.
  split; [|split].
  - intros closure fetched w. cbv zeta. rewrite fetchMessages_merges. repeat split.
    + apply sort_ascending.
    + intros i Hi. rewrite (occurrences_Permutation _ _ _ (sort_Permutation _)).
      rewrite occurrences_app.
      rewrite (occurrences_zero i (missingMessages _ _)); [lia|].
      intros Hin. unfold ids in Hin. apply in_map_iff in Hin.
      destruct Hin as [m [E Hm]]. apply missing_In in Hm. destruct Hm as [_ Hnot].
      apply Hnot. rewrite E. exact Hi.
    + intros Hk Hf. apply sort_NoDup, merged_NoDup; assumption.
  - reflexivity.
  - intros w n p fetched Hreach Hp Hreq.
    pose proof (reachable_first_render _ Hreach) as Hall.
    rewrite Forall_forall in Hall.
    pose proof (Hall p (nth_error_In _ _ Hp) Hreq) as Henv.
    unfold step. rewrite Hp. unfold deliver. rewrite Hreq.
    cbn [messages_of option_map].
    eexists. split; [reflexivity|].
    rewrite turn_state, fetchMessages_chain_merges, Henv.
    cbn [messages initialState app]. rewrite missing_nil.
    split; [reflexivity|]. split; [apply sort_ascending|].
    apply sort_NoDup.
Qed.

(** C4 (amended): a poll timer is set only while [currentRun] is non-null
    and its status is one of "queued", "in_progress", "cancelling",
    "requires_action".  A poll response that carries a run outside these
    states sets no timer and fetches the messages instead; and however the
    execution goes on, no poll is scheduled for as long as no response
    brings an active run (one to a request still in flight, or to a new
    prompt). *)
Theorem polling_stops_until_an_active_run_arrives :
  (forall (closure : State) (w : World),
     timers (run (pollRunStatus closure) w) <> timers w <->
     exists r, currentRun closure = Some r /\ In (status r) active_statuses)
  /\ (forall (w : World) (n : nat) (p : Pending) (r : Run),
       nth_error (pending w) n = Some p ->
       is_poll (request p) = true ->
       isRunActive (Some r) = false ->
       exists w',
         step (Settle n (Fulfilled (RunData r))) w = Some w'
         /\ timers w' = timers w
         /\ nextTimeoutId w' = nextTimeoutId w
         /\ currentRun (state w') = Some r
         /\ pending w' =
              remove_nth n (pending w)
              ++ [{| request := GetMessages; env := initialState;
                     chain := Standalone |}])
  /\ (forall (evs : list Event) (w w' : World),
       exec evs w = Some w' ->
       Forall (fun ev => carries_active_run ev = false) evs ->
       nextTimeoutId w' = nextTimeoutId w).
Proof.
  split; [|split].
  - intros closure w. rewrite pollRunStatus_timers, <- isRunActive_spec.
    destruct (isRunActive (currentRun closure)).
    + split; [reflexivity|]. intros _ E.
      apply (f_equal (@List.length Timer)) in E. rewrite length_app in E.
      cbn in E. lia.
    + rewrite app_nil_r. split; [intros H; exfalso; apply H; reflexivity | discriminate].
  - intros w n p r Hp Hreq Hinactive.
    unfold step. rewrite Hp. unfold deliver.
    destruct (request p); try discriminate Hreq. cbn [run_of option_map].
    eexists. split; [reflexivity|].
    unfold turn, render, run, pollCurrentRunStatus_settled, settle,
      pollCurrentRunStatus_then, try_catch, bind.
    cbn [setCurrentRun]. rewrite Hinactive. cbn.
    unfold useEffect_pollRunStatus, pollRunStatus, bind. cbn.
    rewrite Hinactive. cbn. repeat split.
  - intros evs w w'. apply exec_sets_no_timer.
Qed.


(** ** Further properties *)

(** *** The tool loop *)

(** X1: [executeAssistantActions] changes the map cells and the messages
    and nothing else, whether it returns or raises: it sends no request,
    sets and clears no timer, logs nothing, and leaves [currentRun],
    [userPrompt], [assistantWriting] and [loading] as they are. *)
Theorem executeAssistantActions_touches_only_map_and_messages
    (closure : State) (r : Run) (w : World) :
  frame w (run (executeAssistantActions closure r) w).
Proof. apply framed_executeAssistantActions. Qed.

Lemma executeActions_app closure l1 : forall l2 outputs w,
  executeActions closure (l1 ++ l2) outputs w =
    (o <- executeActions closure l1 outputs ;; executeActions closure l2 o) w.
Proof.
  induction l1 as [|a l1 IH]; intros l2 outputs w.
  - reflexivity.
  - cbn [app executeActions]. unfold bind.
    destruct (executeAction closure a outputs w) as [[e|o] w1].
    + reflexivity.
    + rewrite IH. unfold bind. reflexivity.
Qed.

(** X2: a tool call that raises ends the loop.  The calls before it keep
    their effect, the calls after it are not run (the world is the one the
    failing call left), and [executeAssistantActions] returns no outputs but
    the error. *)
Theorem raising_call_ends_the_loop
    (closure : State) (before after_it : list ToolCall) (failing : ToolCall)
    (outputs done : list ToolOutput) (w w1 w2 : World) (e : Error) :
  executeActions closure before outputs w = (inr done, w1) ->
  executeAction closure failing done w1 = (inl e, w2) ->
  executeActions closure (before ++ failing :: after_it) outputs w = (inl e, w2).
Proof.
  intros Hbefore Hfail. rewrite executeActions_app. unfold bind at 1.
  rewrite Hbefore. cbn [executeActions]. unfold bind. rewrite Hfail. reflexivity.
Qed.

Lemma executeAction_messages closure action outputs w :
  completes action = true ->
  messages (state (run (executeAction closure action outputs) w)) =
    if handled action then messages closure ++ [annotation_of action]
    else messages (state w).
Proof.
  unfold completes, handled, annotation_of, executeAction, handled_names, includes, run.
  destruct (String.eqb (type action) "function"); cbn [andb existsb orb]; [|reflexivity].
  destruct (arguments (function action)) as [|args]; [discriminate|].
  cbn [JSON_parse lift bind].
  destruct (String.eqb (name (function action)) "changeMapZoomLevel") eqn:Ez.
  { apply String.eqb_eq in Ez. rewrite Ez. cbn [String.eqb Ascii.eqb Bool.eqb orb].
    intros H. apply negb_true_iff in H. rewrite (get_field _ _ H). reflexivity. }
  destruct (String.eqb (name (function action)) "changeMapCenter") eqn:Ec.
  { apply String.eqb_eq in Ec. rewrite Ec. cbn [String.eqb Ascii.eqb Bool.eqb orb].
    intros H. apply andb_true_iff in H. destruct H as [H Hlo].
    apply andb_true_iff in H. destruct H as [H Hla].
    apply negb_true_iff in H. rewrite !(get_field _ _ H). cbn [lift bind].
    unfold changeMapCenter, bind.
    rewrite (ToString_printable _ Hla), (ToString_printable _ Hlo). reflexivity. }
  destruct (String.eqb (name (function action)) "addLocationsToMap") eqn:Ea.
  { intros H. apply andb_true_iff in H. destruct H as [H1 H2].
    apply negb_true_iff in H1. rewrite !(get_field _ _ H1). cbn [lift bind].
    destruct (get_length_measurable _ H2) as [Hlen Hstr].
    unfold addLocationsToMap, bind, lift. rewrite Hlen. cbn beta iota.
    rewrite Hstr. reflexivity. }
  cbn [orb]. intros _. reflexivity.
Qed.

Lemma executeActions_messages closure actions : forall outputs w,
  Forall (fun a => completes a = true) actions ->
  (existsb handled actions = true ->
     exists a, In a actions /\ handled a = true
       /\ messages (state (run (executeActions closure actions outputs) w))
          = messages closure ++ [annotation_of a])
  /\ (existsb handled actions = false ->
        messages (state (run (executeActions closure actions outputs) w))
        = messages (state w)).
Proof.
  induction actions as [|a rest IH]; intros outputs w Hall.
  - split; [discriminate | reflexivity].
  - inversion Hall as [|? ? Ha Hrest]; subst.
    pose proof (executeAction_completes closure a outputs w Ha) as Hfst.
    pose proof (executeAction_messages closure a outputs w Ha) as Hmsg.
    unfold run in *. cbn [executeActions]. unfold bind.
    destruct (executeAction closure a outputs w) as [[e|o] w1]; cbn [fst snd] in *;
      [discriminate|].
    destruct (IH o w1 Hrest) as [IHsome IHnone].
    cbn [existsb In]. split.
    + intros Hex. destruct (existsb handled rest) eqn:Hr.
      * destruct (IHsome eq_refl) as [a' [Hin [Hh Hm]]].
        exists a'. auto.
      * rewrite orb_false_r in Hex. exists a. rewrite (IHnone eq_refl), Hmsg, Hex. auto.
    + intros Hex. apply orb_false_iff in Hex. destruct Hex as [Hh Hr].
      rewrite (IHnone Hr), Hmsg, Hh. reflexivity.
Qed.

Lemma executeAssistantActions_messages (closure : State) (r : Run) (w : World) :
  Forall (fun a => completes a = true) (actions_of r) ->
  (existsb handled (actions_of r) = true ->
     exists a, In a (actions_of r) /\ handled a = true
       /\ messages (state (run (executeAssistantActions closure r) w))
          = messages closure ++ [annotation_of a])
  /\ (existsb handled (actions_of r) = false ->
        messages (state (run (executeAssistantActions closure r) w))
        = messages (state w)).
Proof.
  unfold executeAssistantActions, actions_of.
  destruct (required_action r) as [ra|].
  - apply executeActions_messages.
  - intros _. split; [discriminate | reflexivity].
Qed.

Lemma executeAssistantActions_returns (closure : State) (r : Run) (w : World) :
  Forall (fun a => completes a = true) (actions_of r) ->
  exists outputs, fst (executeAssistantActions closure r w) = inr outputs.
Proof.
  unfold executeAssistantActions, actions_of.
  destruct (required_action r) as [ra|]; intros Hall.
  - rewrite (executeActions_completes _ _ _ _ Hall). eexists. reflexivity.
  - exists []. reflexivity.
Qed.

(** X3: however many tool calls a run has, the handlers leave a single
    annotation.  Each handler stores the messages of the render it was
    created in plus its own annotation, so when no call raises and at least
    one reaches a handler, the messages after [executeAssistantActions] are
    those of that render followed by the annotation of one call of the run:
    what the list held before, and the annotations of the other calls, are
    gone.  When no call reaches a handler the messages are untouched. *)
Theorem tool_calls_leave_one_annotation (closure : State) (r : Run) (w : World) :
  Forall (fun a => completes a = true) (actions_of r) ->
  (existsb handled (actions_of r) = true ->
     exists a, In a (actions_of r) /\ handled a = true
       /\ messages (state (run (executeAssistantActions closure r) w))
          = messages closure ++ [annotation_of a])
  /\ (existsb handled (actions_of r) = false ->
        messages (state (run (executeAssistantActions closure r) w))
        = messages (state w)).
Proof. apply executeAssistantActions_messages. Qed.

(** *** What the callbacks of a run received come to *)

Lemma fetchOpenRun_requires_action (closure : State) (r : Run) (w : World) :
  status r = "requires_action" ->
  fetchOpenRun_settled closure (inr (Some r)) w =
    match executeAssistantActions closure r (run (setCurrentRun r) w) with
    | (inr outputs, w') => submitFunctionOutputs closure outputs (run_id r) w'
    | (inl e, w') => Logger_error e w'
    end.
Proof.
  intros Hstatus.
  unfold fetchOpenRun_settled, settle, fetchOpenRun_then.
  rewrite (requires_action_is_active _ Hstatus).
  apply String.eqb_eq in Hstatus. rewrite Hstatus.
  unfold run, try_catch, bind. cbn [setCurrentRun snd].
  destruct (executeAssistantActions closure r _) as [[e|outputs] w']; reflexivity.
Qed.

Lemma pollCurrentRunStatus_requires_action (closure : State) (r : Run) (w : World) :
  status r = "requires_action" ->
  pollCurrentRunStatus_settled closure (inr r) w =
    match executeAssistantActions closure r (run (setCurrentRun r) w) with
    | (inr outputs, w') => submitFunctionOutputs closure outputs (run_id r) w'
    | (inl e, w') => console_error e w'
    end.
Proof.
  intros Hstatus.
  unfold pollCurrentRunStatus_settled, settle, pollCurrentRunStatus_then.
  rewrite (requires_action_is_active _ Hstatus).
  apply String.eqb_eq in Hstatus. rewrite Hstatus. cbn [negb].
  unfold run, try_catch, bind. cbn [setCurrentRun snd].
  destruct (executeAssistantActions closure r _) as [[e|outputs] w']; reflexivity.
Qed.

(** A settled request's callback catches whatever is raised. *)
Lemma settle_returns {A} (r : Error + A) (on_then : A -> M unit)
    (on_catch : Error -> M unit) (w : World) :
  (forall e w', fst (on_catch e w') = inr tt) ->
  fst (settle r on_then on_catch w) = inr tt.
Proof.
  intros Hcatch. unfold settle, try_catch. destruct r as [e|a]; [apply Hcatch|].
  destruct (on_then a w) as [[e|[]] w']; [apply Hcatch | reflexivity].
Qed.

Lemma step_Settle_eq (n : nat) (r : Settled) (w : World) (p : Pending)
    (callback : M unit) :
  nth_error (pending w) n = Some p ->
  deliver p r = Some callback ->
  step (Settle n r) w = Some (turn callback (with_pending (remove_nth n (pending w)) w)).
Proof. intros Hp Hd. cbn [step]. rewrite Hp, Hd. reflexivity. Qed.

Lemma nth_error_last {A} (l : list A) (x : A) :
  nth_error (l ++ [x]) (List.length l) = Some x.
Proof. rewrite nth_error_app2, Nat.sub_diag by apply Nat.le_refl. reflexivity. Qed.

Lemma remove_nth_last {A} (l : list A) (x : A) :
  remove_nth (List.length l) (l ++ [x]) = l.
Proof. rewrite remove_nth_split. apply app_nil_r. Qed.

(** *** Hydration *)

Lemma hydration_last_link (closure : State) (r : Error + option Run) (w : World) :
  loading
    (state (run (chained Hydrating (fetchOpenRun_settled closure r)
                   hydrate_after_fetchOpenRun) w)) = false.
Proof.
  unfold chained, run, try_catch, bind.
  pose proof (settle_returns r (fetchOpenRun_then closure) Logger_error w
                (fun e w' => eq_refl)) as Hret.
  fold (fetchOpenRun_settled closure r) in Hret.
  destruct (fetchOpenRun_settled closure r w) as [[e|[]] w1]; cbn [fst] in Hret;
    [discriminate|].
  reflexivity.
Qed.

(** X4: hydration always comes to its end.  On mounting only the messages
    are requested; the open run is requested when that request has settled,
    whatever became of it; and when the second request has settled, whatever
    became of it and of the tool calls of the run it brought, [loading] is
    false: the skeleton never stays for a failure. *)
Theorem hydration_always_ends_loading
    (r1 : Error + option (list Message)) (r2 : Error + option Run) :
  pending mount =
    [{| request := GetMessages; env := initialState; chain := Hydrating |}]
  /\ loading (state mount) = true
  /\ exists w1 w2,
       step (Settle 0 (settled_messages r1)) mount = Some w1
       /\ pending w1 = [{| request := GetRuns; env := initialState; chain := Hydrating |}]
       /\ loading (state w1) = true
       /\ step (Settle 0 (settled_runs r2)) w1 = Some w2
       /\ loading (state w2) = false.
Proof.
  split; [reflexivity|]. split; [reflexivity|].
  eexists. eexists. split.
  { destruct r1 as [e|[fetched|]]; reflexivity. }
  split. { destruct r1 as [e|[fetched|]]; reflexivity. }
  split. { destruct r1 as [e|[fetched|]]; reflexivity. }
  split.
  { apply step_Settle_eq with
      (p := {| request := GetRuns; env := initialState; chain := Hydrating |}).
    - destruct r1 as [e|[fetched|]]; reflexivity.
    - destruct r2 as [e|latest]; reflexivity. }
  rewrite turn_state. apply hydration_last_link.
Qed.

(** *** Submitting a prompt *)

(** X5: a prompt whose request fails is lost.  Pressing Enter empties the
    prompt and sends the text typed; when the request is rejected the error
    is logged and nothing else changes: the prompt stays empty, the text is
    not among the messages, nothing is sent again. *)
Theorem failed_prompt_is_lost (w : World) (text : string) (e : Error) :
  input_enabled (state w) = true ->
  exists w1 w2 w3,
    step (Typing text) w = Some w1
    /\ userPrompt (state w1) = text
    /\ step Enter w1 = Some w2
    /\ userPrompt (state w2) = ""
    /\ pending w2 =
         pending w ++ [{| request := PostMessage text; env := state w1;
                          chain := Standalone |}]
    /\ step (Settle (List.length (pending w)) (Rejected e)) w2 = Some w3
    /\ state w3 = state w2
    /\ messages (state w3) = messages (state w)
    /\ pending w3 = pending w
    /\ timers w3 = timers w
    /\ errors w3 = errors w ++ [e].
Proof.
  intros Hinput. eexists. eexists. eexists.
  split. { cbn [step]. rewrite Hinput. reflexivity. }
  split; [reflexivity|].
  split. { cbn [step]. unfold input_enabled in *. cbn. rewrite Hinput. reflexivity. }
  split; [reflexivity|]. split; [reflexivity|].
  split.
  { cbn [step pending turn render run]. cbn. rewrite nth_error_last.
    cbn. reflexivity. }
  cbn. rewrite remove_nth_last. repeat split.
Qed.

(** X6: when a prompt is accepted, the message the server returns is
    appended to the messages of the render in which Enter was pressed
    (whatever the list holds by then is replaced), the run is stored, the
    assistant is marked as writing and the input is disabled; a poll timer
    is set exactly when the run is active. *)
Theorem accepted_prompt_is_appended
    (w : World) (n : nat) (p : Pending) (content : string) (m : Message) (r : Run) :
  nth_error (pending w) n = Some p ->
  request p = PostMessage content ->
  exists w',
    step (Settle n (Fulfilled (MessageData m r))) w = Some w'
    /\ messages (state w') = messages (env p) ++ [m]
    /\ currentRun (state w') = Some r
    /\ assistantWriting (state w') = true
    /\ input_enabled (state w') = false
    /\ pending w' = remove_nth n (pending w)
    /\ timers w' =
         timers w ++
           (if isRunActive (Some r) then
              [{| timeoutId := nextTimeoutId w; due := (now w + poll_delay)%Z;
                  timer_env := state w' |}]
            else []).
Proof.
  intros Hp Hreq. eexists. split.
  { apply (step_Settle_eq _ _ _ p); [exact Hp|]. unfold deliver. rewrite Hreq.
    reflexivity. }
  rewrite turn_spec. unfold armed. cbn.
  destruct (isRunActive (Some r)); cbn; rewrite ?app_nil_r, ?andb_false_r; repeat split.
  all: unfold input_enabled; cbn; apply andb_false_r.
Qed.

(** *** The disabled input *)

Lemma writing_kept_refl (w : World) : writing_kept w w.
Proof. intros H. exact H. Qed.

Lemma writing_kept_trans (w1 w2 w3 : World) :
  writing_kept w1 w2 -> writing_kept w2 w3 -> writing_kept w1 w3.
Proof. intros H12 H23 H. apply H23, H12, H. Qed.

Lemma frame_writing_kept (w w' : World) : frame w w' -> writing_kept w w'.
Proof. intros [] H. congruence. Qed.

Ltac writing_leaf :=
  first
    [ solve [intros ? H; exact H]
    | solve [intros ? _; reflexivity]
    | solve [intros ?; apply frame_writing_kept, framed_executeAssistantActions] ].

Ltac writing := respects_by writing_kept_refl writing_kept_trans writing_leaf.

Lemma deliver_writing_kept p r callback :
  deliver p r = Some callback ->
  brings_messages (Settle 0 r) = false ->
  respects writing_kept callback.
Proof.
  unfold deliver. intros Hd Hr.
  destruct (request p), r as [data|e]; try destruct data;
    cbn in Hd, Hr; try discriminate; injection Hd as <-;
    open_callbacks; writing.
Qed.

Lemma step_writing_kept (ev : Event) (w w' : World) :
  step ev w = Some w' ->
  brings_messages ev = false ->
  writing_kept w w'.
Proof.
  intros Hstep Hev. destruct ev as [ms|n|n r|text|].
  - cbn in Hstep. destruct (0 <=? ms)%Z; [|discriminate].
    injection Hstep as <-. intros H; exact H.
  - cbn in Hstep. destruct (nth_error (timers w) n) as [t|]; [|discriminate].
    destruct (due t <=? now w)%Z; [|discriminate]. injection Hstep as <-.
    unfold writing_kept. rewrite turn_state.
    unfold pollCurrentRunStatus. destruct (currentRun (timer_env t)); intros H; exact H.
  - apply step_Settle in Hstep. destruct Hstep as [p [callback [Hp [Hd ->]]]].
    unfold writing_kept. rewrite turn_state.
    exact (deliver_writing_kept _ _ _ Hd Hev
             (with_runChanged false (with_pending (remove_nth n (pending w)) w))).
  - cbn in Hstep. destruct (input_enabled (state w)); [|discriminate].
    injection Hstep as <-. intros H; exact H.
  - cbn in Hstep. destruct (input_enabled (state w)); [|discriminate].
    injection Hstep as <-. intros H; exact H.
Qed.

(** X7: once the assistant is marked as writing, the prompt input stays
    disabled until a request for the messages succeeds: no other event, and
    no failure, enables it again. *)
Theorem input_stays_disabled_until_messages_arrive
    (evs : list Event) (w w' : World) :
  exec evs w = Some w' ->
  assistantWriting (state w) = true ->
  Forall (fun ev => brings_messages ev = false) evs ->
  assistantWriting (state w') = true /\ input_enabled (state w') = false.
Proof.
  revert w. induction evs as [|ev rest IH]; intros w Hexec Hw Hall.
  - injection Hexec as <-. split; [exact Hw|].
    unfold input_enabled. rewrite Hw. apply andb_false_r.
  - cbn [exec] in Hexec. destruct (step ev w) as [w1|] eqn:Hstep; [|discriminate].
    inversion Hall as [|? ? Hev Hrest]; subst.
    apply (IH w1 Hexec); [|exact Hrest].
    exact (step_writing_kept _ _ _ Hstep Hev Hw).
Qed.

Lemma dead_end_step (ev : Event) (w w' : World) :
  pending w = [] -> timers w = [] -> input_enabled (state w) = false ->
  step ev w = Some w' ->
  state w' = state w /\ pending w' = [] /\ timers w' = [] /\ errors w' = errors w.
Proof.
  intros Hp Ht Hi Hstep. destruct ev as [ms|n|n r|text|]; cbn in Hstep.
  - destruct (0 <=? ms)%Z; [|discriminate]. injection Hstep as <-. cbn. auto.
  - rewrite Ht in Hstep. destruct n; discriminate.
  - rewrite Hp in Hstep. destruct n; discriminate.
  - rewrite Hi in Hstep. discriminate.
  - rewrite Hi in Hstep. discriminate.
Qed.

Lemma dead_end_exec (evs : list Event) : forall w w',
  pending w = [] -> timers w = [] -> input_enabled (state w) = false ->
  exec evs w = Some w' ->
  state w' = state w /\ pending w' = [] /\ timers w' = [] /\ errors w' = errors w.
Proof.
  induction evs as [|ev rest IH]; intros w w' Hp Ht Hi Hexec.
  - injection Hexec as <-. auto.
  - cbn [exec] in Hexec. destruct (step ev w) as [w1|] eqn:Hstep; [|discriminate].
    destruct (dead_end_step _ _ _ Hp Ht Hi Hstep) as [Hs [Hp1 [Ht1 He1]]].
    destruct (IH w1 w' Hp1 Ht1) as [Hs' [Hp' [Ht' He']]];
      [rewrite Hs; exact Hi | exact Hexec |].
    repeat split; congruence.
Qed.

(** X8: when the fetch of the messages that ends a run fails, the chat is
    stuck for good.  With that request the only thing in flight, no timer
    pending and the assistant marked as writing, its rejection is logged and
    from then on nothing can happen but the passing of time: the input stays
    disabled, nothing is requested, no timer is set, the state never changes
    again. *)
Theorem failed_last_fetch_disables_the_chat_for_good
    (w : World) (p : Pending) (e : Error) :
  pending w = [p] ->
  request p = GetMessages ->
  chain p = Standalone ->
  timers w = [] ->
  assistantWriting (state w) = true ->
  exists w',
    step (Settle 0 (Rejected e)) w = Some w'
    /\ errors w' = errors w ++ [e]
    /\ forall evs w'',
         exec evs w' = Some w'' ->
         input_enabled (state w'') = false
         /\ state w'' = state w
         /\ pending w'' = []
         /\ timers w'' = [].
Proof.
  intros Hp Hreq Hchain Ht Hw. eexists. split.
  { apply (step_Settle_eq _ _ _ p); [rewrite Hp; reflexivity|].
    unfold deliver. rewrite Hreq, Hchain. reflexivity. }
  rewrite Hp. cbn. split; [reflexivity|].
  intros evs w'' Hexec.
  assert (Hi : input_enabled (state w) = false).
  { unfold input_enabled. rewrite Hw. apply andb_false_r. }
  apply dead_end_exec in Hexec; [|reflexivity | exact Ht | exact Hi].
  cbn in Hexec. destruct Hexec as [Hs [Hp' [Ht' _]]].
  rewrite Hs. auto.
Qed.

(** *** The polling loop *)

Lemma poll_callback_stores_the_run (closure : State) (r : Run) (w : World) :
  let w1 := run (pollCurrentRunStatus_settled closure (inr r)) w in
  currentRun (state w1) = Some r /\ runChanged w1 = true.
Proof.
  cbv zeta.
  unfold pollCurrentRunStatus_settled, settle, pollCurrentRunStatus_then.
  destruct (isRunActive (Some r)); cbn [negb]; [|split; reflexivity].
  destruct (String.eqb (status r) "requires_action"); [|split; reflexivity].
  pose proof (framed_executeAssistantActions closure r (run (setCurrentRun r) w)) as F.
  unfold run, try_catch, bind in *. cbn [setCurrentRun snd] in *.
  destruct (executeAssistantActions closure r _) as [[e|outputs] w'];
    cbn [snd] in F; cbn;
    rewrite (frame_currentRun _ _ F), (frame_runChanged _ _ F); split; reflexivity.
Qed.

(** X9: a poll response that carries an active run keeps the loop going.
    The run is stored and exactly one timer is set, due 2000 ms later,
    whether the tool calls of the run return or raise; when the status is
    not "requires_action" nothing else changes. *)
Theorem active_poll_response_sets_the_next_timer
    (w : World) (n : nat) (p : Pending) (r : Run) :
  nth_error (pending w) n = Some p ->
  is_poll (request p) = true ->
  isRunActive (Some r) = true ->
  exists w',
    step (Settle n (Fulfilled (RunData r))) w = Some w'
    /\ currentRun (state w') = Some r
    /\ timers w' =
         timers w ++ [{| timeoutId := nextTimeoutId w; due := (now w + 2000)%Z;
                         timer_env := state w' |}]
    /\ nextTimeoutId w' = S (nextTimeoutId w)
    /\ (status r <> "requires_action" ->
        state w' = with_currentRun (Some r) (state w)
        /\ pending w' = remove_nth n (pending w)
        /\ errors w' = errors w).
Proof.
  intros Hp Hreq Hactive.
  assert (Hd : deliver p (Fulfilled (RunData r))
               = Some (pollCurrentRunStatus_settled (env p) (inr r))).
  { unfold deliver. destruct (request p); try discriminate Hreq. reflexivity. }
  eexists. split; [apply (step_Settle_eq _ _ _ p _ Hp Hd)|].
  set (w0 := with_pending (remove_nth n (pending w)) w).
  destruct (poll_callback_stores_the_run (env p) r (with_runChanged false w0))
    as [Hrun Hchanged].
  destruct (turn_undisturbed _ w0 (calm_deliver _ _ _ Hd))
    as [Ht [Hn [_ [Hnow Hnext]]]].
  assert (Harmed : armed (run (pollCurrentRunStatus_settled (env p) (inr r))
                            (with_runChanged false w0)) = true).
  { unfold armed. rewrite Hchanged, Hrun. exact Hactive. }
  rewrite Harmed in Ht, Hn.
  split; [rewrite turn_state; exact Hrun|].
  split.
  { rewrite Ht. unfold poll_timer. rewrite Hnow, Hnext, turn_state. reflexivity. }
  split; [rewrite Hn; cbn; lia|].
  intros Hstatus. apply String.eqb_neq in Hstatus.
  rewrite turn_state, turn_pending.
  unfold pollCurrentRunStatus_settled, settle, pollCurrentRunStatus_then.
  rewrite Hactive, Hstatus.
  split; [reflexivity|]. split; [reflexivity|].
  rewrite turn_spec. cbn. rewrite Hactive. reflexivity.
Qed.

Lemma open_run_callback_messages (closure : State) (r : Run) (w : World) :
  status r = "requires_action" ->
  Forall (fun a => completes a = true) (actions_of r) ->
  existsb handled (actions_of r) = true ->
  exists a,
    In a (actions_of r)
    /\ messages
         (state (run (chained Hydrating (fetchOpenRun_settled closure (inr (Some r)))
                        hydrate_after_fetchOpenRun) w))
       = messages closure ++ [annotation_of a].
Proof.
  intros Hstatus Hall Hex.
  destruct (proj1 (executeAssistantActions_messages closure r
                     (run (setCurrentRun r) w) Hall) Hex)
    as [a [Hin [_ Hmsg]]].
  destruct (executeAssistantActions_returns closure r
              (run (setCurrentRun r) w) Hall) as [outputs Hret].
  exists a. split; [exact Hin|].
  unfold chained, hydrate_after_fetchOpenRun. unfold run at 1. unfold try_catch, bind.
  rewrite (fetchOpenRun_requires_action _ _ _ Hstatus).
  unfold run at 1 in Hmsg.
  destruct (executeAssistantActions closure r (run (setCurrentRun r) w))
    as [[e|o] w'] eqn:Hacted; cbn [fst snd] in *; [discriminate|].
  cbn. exact Hmsg.
Qed.

(** X10: hydration that finds an open run waiting for a tool call loses the
    messages it has just fetched.  [fetchOpenRun] runs the handlers of the
    first render, which hold the empty list: when no call of the run raises
    and one reaches a handler, the messages after hydration are a single
    annotation, whatever the server had returned. *)
Theorem hydration_with_tool_calls_drops_the_fetched_messages
    (fetched : list Message) (r : Run) :
  status r = "requires_action" ->
  Forall (fun a => completes a = true) (actions_of r) ->
  existsb handled (actions_of r) = true ->
  exists w1 w2 a,
    step (Settle 0 (Fulfilled (MessagesData (Some fetched)))) mount = Some w1
    /\ messages (state w1) = sort_by_created_at fetched
    /\ step (Settle 0 (Fulfilled (RunsData (Some r)))) w1 = Some w2
    /\ In a (actions_of r)
    /\ messages (state w2) = [annotation_of a].
Proof.
  intros Hstatus Hall Hex.
  set (w1 := turn (chained Hydrating
                     (fetchMessages_settled initialState (inr (Some fetched)))
                     hydrate_after_fetchMessages) (with_pending [] mount)).
  set (callback := chained Hydrating (fetchOpenRun_settled initialState (inr (Some r)))
                     hydrate_after_fetchOpenRun).
  destruct (open_run_callback_messages initialState r
              (with_runChanged false (with_pending (remove_nth 0 (pending w1)) w1))
              Hstatus Hall Hex) as [a [Hin Hmsg]].
  exists w1, (turn callback (with_pending (remove_nth 0 (pending w1)) w1)), a.
  split; [reflexivity|].
  split. { cbn. rewrite missing_nil. reflexivity. }
  split.
  { apply step_Settle_eq with
      (p := {| request := GetRuns; env := initialState; chain := Hydrating |});
      reflexivity. }
  split; [exact Hin|].
  rewrite turn_state. exact Hmsg.
Qed.

(** *** Timers *)

Lemma step_timers_account (ev : Event) (w w' : World) :
  step ev w = Some w' ->
  exists kept added,
    timers w' = kept ++ added
    /\ (kept = timers w \/ exists n, ev = Fire n /\ kept = remove_nth n (timers w))
    /\ ((added = [] /\ nextTimeoutId w' = nextTimeoutId w)
        \/ (added = [{| timeoutId := nextTimeoutId w; due := (now w + poll_delay)%Z;
                        timer_env := state w' |}]
            /\ nextTimeoutId w' = S (nextTimeoutId w)
            /\ isRunActive (currentRun (state w')) = true)).
Proof.
  intros Hstep. destruct ev as [ms|n|n r|text|].
  - cbn in Hstep. destruct (0 <=? ms)%Z; [|discriminate].
    injection Hstep as <-. exists (timers w), []. rewrite app_nil_r. auto.
  - apply step_Fire in Hstep. destruct Hstep as [t [Ht [_ [Htimers [Hn _]]]]].
    exists (remove_nth n (timers w)), []. rewrite app_nil_r.
    split; [exact Htimers|]. split; [right; exists n; auto | left; auto].
  - apply step_Settle in Hstep. destruct Hstep as [p [callback [Hp [Hd ->]]]].
    destruct (turn_undisturbed callback (with_pending (remove_nth n (pending w)) w)
                (calm_deliver _ _ _ Hd)) as [Ht [Hn [_ [Hnow Hnext]]]].
    rewrite Ht, Hn. exists (timers w). eexists. split; [reflexivity|]. split; [auto|].
    destruct (armed _) eqn:Harmed; [right|left; cbn; split; [reflexivity | lia]].
    unfold poll_timer. rewrite Hnext, Hnow, turn_state. cbn.
    split; [reflexivity|]. split; [lia|].
    unfold armed in Harmed. apply andb_true_iff in Harmed. apply Harmed.
  - cbn in Hstep. destruct (input_enabled (state w)); [|discriminate].
    injection Hstep as <-. exists (timers w), []. rewrite app_nil_r. auto.
  - cbn in Hstep. destruct (input_enabled (state w)); [|discriminate].
    injection Hstep as <-. exists (timers w), []. rewrite app_nil_r. auto.
Qed.

(** X11: no step of the component clears a timer.  A pending timer stays in
    the list until it fires, and a step adds at most one timer, whose delay
    is 2000 ms whatever was answered or had failed before, and only when the
    run then stored is active. *)
Theorem timers_leave_only_by_firing (ev : Event) (w w' : World) :
  step ev w = Some w' ->
  exists kept added,
    timers w' = kept ++ added
    /\ (kept = timers w \/ exists n, ev = Fire n /\ kept = remove_nth n (timers w))
    /\ ((added = [] /\ nextTimeoutId w' = nextTimeoutId w)
        \/ (added = [{| timeoutId := nextTimeoutId w; due := (now w + 2000)%Z;
                        timer_env := state w' |}]
            /\ nextTimeoutId w' = S (nextTimeoutId w)
            /\ isRunActive (currentRun (state w')) = true)).
Proof. apply step_timers_account. Qed.

Lemma step_timer_invariants (ev : Event) (w w' : World) :
  step ev w = Some w' ->
  fresh_ids w /\ timers_hold_active_runs w ->
  fresh_ids w' /\ timers_hold_active_runs w'.
Proof.
  unfold fresh_ids, timers_hold_active_runs. intros Hstep [Hfresh Hactive].
  destruct (step_timers_account _ _ _ Hstep) as [kept [added [Ht [Hkept Hadded]]]].
  pose proof (step_sets_at_most_one_timer _ _ _ Hstep) as Hle.
  assert (Hk : Forall (fun t => timeoutId t < nextTimeoutId w) kept
               /\ Forall (fun t => isRunActive (currentRun (timer_env t)) = true) kept).
  { destruct Hkept as [->|[n [_ ->]]]; [auto|].
    split; apply Forall_remove_nth; assumption. }
  destruct Hk as [Hk1 Hk2]. rewrite Ht. split; apply Forall_app; split.
  - eapply Forall_impl; [|exact Hk1]. cbn. intros; lia.
  - destruct Hadded as [[-> _]|[-> [Hn _]]]; [constructor|].
    constructor; [cbn; lia | constructor].
  - exact Hk2.
  - destruct Hadded as [[-> _]|[-> [_ Hrun]]]; [constructor|].
    constructor; [exact Hrun | constructor].
Qed.

Lemma reachable_timer_invariants (w : World) :
  reachable w -> fresh_ids w /\ timers_hold_active_runs w.
Proof.
  intros [evs Hexec].
  assert (Hmount : fresh_ids mount /\ timers_hold_active_runs mount)
    by (split; constructor).
  revert Hexec Hmount. generalize mount. induction evs as [|ev rest IH]; intros w0 Hexec H0.
  - injection Hexec as <-. exact H0.
  - cbn [exec] in Hexec. destruct (step ev w0) as [w1|] eqn:Hstep; [|discriminate].
    apply (IH w1 Hexec). eapply step_timer_invariants; eassumption.
Qed.

Lemma filter_all {A} (f : A -> bool) (l : list A) :
  Forall (fun x => f x = true) l -> filter f l = l.
Proof.
  induction 1 as [|x l Hx Hl IH]; cbn; [reflexivity|]. rewrite Hx, IH. reflexivity.
Qed.

(** X12: the function [pollRunStatus] returns clears the timer it has set
    and no other.  In every world the component can reach the ids of the
    pending timers are below the next id; there, for an active run,
    [pollRunStatus] sets one timer and running what it returned leaves the
    timers exactly as they were before.  For no run, or a run that is not
    active, it sets nothing and returns nothing to run. *)
Theorem pollRunStatus_cleanup_clears_its_own_timer :
  (forall w, reachable w -> fresh_ids w)
  /\ (forall (closure : State) (w : World),
        fresh_ids w ->
        isRunActive (currentRun closure) = true ->
        exists c,
          fst (pollRunStatus closure w) = inr (Some c)
          /\ List.length (timers (run (pollRunStatus closure) w))
             = S (List.length (timers w))
          /\ timers (run (run_cleanup c) (run (pollRunStatus closure) w)) = timers w)
  /\ (forall (closure : State) (w : World),
        isRunActive (currentRun closure) = false ->
        pollRunStatus closure w = (inr None, w)).
Proof.
  split; [|split].
  - intros w Hreach. apply (reachable_timer_invariants w Hreach).
  - intros closure w Hfresh Hactive. exists (nextTimeoutId w).
    unfold pollRunStatus, run. rewrite truthy_active, Hactive. cbn.
    split; [reflexivity|]. split; [rewrite length_app; cbn; lia|].
    rewrite filter_app. cbn. rewrite Nat.eqb_refl. cbn. rewrite app_nil_r.
    apply filter_all. eapply Forall_impl; [|exact Hfresh]. cbn.
    intros t Hlt. apply negb_true_iff, Nat.eqb_neq. lia.
  - intros closure w Hinactive.
    unfold pollRunStatus. rewrite truthy_active, Hinactive. reflexivity.
Qed.

(** X13: a timer fires no sooner than it is due, and when it fires it polls
    the run of the render that set it.  In every world the component can
    reach, each pending timer holds an active run; firing it is possible
    exactly from its due time on, removes it, and sends one request for the
    status of that run, whatever [currentRun] has become since; the state
    is not touched. *)
Theorem fired_timer_polls_the_run_it_was_set_for
    (w : World) (n : nat) (t : Timer) :
  reachable w ->
  nth_error (timers w) n = Some t ->
  exists r,
    currentRun (timer_env t) = Some r
    /\ isRunActive (Some r) = true
    /\ ((now w < due t)%Z -> step (Fire n) w = None)
    /\ ((due t <= now w)%Z ->
        exists w',
          step (Fire n) w = Some w'
          /\ timers w' = remove_nth n (timers w)
          /\ pending w' =
               pending w ++ [{| request := GetRun (run_id r); env := timer_env t;
                                chain := Standalone |}]
          /\ state w' = state w).
Proof.
  intros Hreach Ht.
  destruct (reachable_timer_invariants w Hreach) as [_ Hactive].
  unfold timers_hold_active_runs in Hactive. rewrite Forall_forall in Hactive.
  pose proof (Hactive t (nth_error_In _ _ Ht)) as Hrun.
  destruct (currentRun (timer_env t)) as [r|] eqn:Hcur; [|discriminate Hrun].
  exists r. split; [reflexivity|]. split; [exact Hrun|]. split.
  - intros Hearly. cbn [step]. rewrite Ht.
    destruct (Z.leb_spec (due t) (now w)); [lia | reflexivity].
  - intros Hdue. cbn [step]. rewrite Ht.
    destruct (Z.leb_spec (due t) (now w)); [|lia].
    eexists. split; [reflexivity|].
    unfold turn, pollCurrentRunStatus. rewrite Hcur. cbn. repeat split.
Qed.

(** *** Sorting the messages *)

Lemma sort_sorted_input l : ascending l -> sort_by_created_at l = l.
Proof.
  unfold ascending. induction 1 as [|m l Hl IH Hall]; cbn; [reflexivity|].
  rewrite IH. destruct l as [|x rest]; [reflexivity|]. cbn.
  inversion Hall as [|? ? Hle _]; subst.
  destruct (Z.leb_spec (created_at m) (created_at x)); [reflexivity | lia].
Qed.

(** X14: sorting loses and invents no message: the sorted list is a
    permutation of the list given, in ascending order of [created_at]; a
    list that is already in order, ties included, is returned as it is, so
    sorting twice is sorting once. *)
Theorem sorting_keeps_every_message (l : list Message) :
  Permutation (sort_by_created_at l) l
  /\ ascending (sort_by_created_at l)
  /\ (ascending l -> sort_by_created_at l = l)
  /\ sort_by_created_at (sort_by_created_at l) = sort_by_created_at l.
Proof.
  split; [apply sort_Permutation|]. split; [apply sort_ascending|].
  split; [apply sort_sorted_input|]. apply sort_sorted_input, sort_ascending.
Qed.

(** *** Failures in the event loop *)

(** X15: in the event loop a rejected request is logged and that is all.
    The request leaves the list of requests in flight and is not sent again,
    the error is the last entry of the log, no timer is set or cleared and
    the state is as it was.  Inside hydration the chain goes on: after the
    messages the open run is requested, after the open run [loading] is set
    to false. *)
Theorem rejected_request_is_logged_and_not_retried
    (w : World) (n : nat) (p : Pending) (e : Error) :
  nth_error (pending w) n = Some p ->
  exists w',
    step (Settle n (Rejected e)) w = Some w'
    /\ errors w' = errors w ++ [e]
    /\ timers w' = timers w
    /\ nextTimeoutId w' = nextTimeoutId w
    /\ match chain p, request p with
       | Hydrating, GetMessages =>
           state w' = state w
           /\ pending w' =
                remove_nth n (pending w)
                ++ [{| request := GetRuns; env := initialState; chain := Hydrating |}]
       | Hydrating, GetRuns =>
           state w' = with_loading false (state w)
           /\ pending w' = remove_nth n (pending w)
       | _, _ =>
           state w' = state w /\ pending w' = remove_nth n (pending w)
       end.
Proof.
  intros Hp. cbn [step]. rewrite Hp. unfold deliver.
  destruct (request p), (chain p);
    cbn [messages_of runs_of run_of message_of outputs_of option_map];
    (eexists; split; [reflexivity|]); cbn; repeat split.
Qed.

Lemma turn_errors (callback : M unit) (w : World) :
  errors (turn callback w) = errors (run callback (with_runChanged false w)).
Proof. rewrite turn_spec. destruct (armed _); reflexivity. Qed.

Lemma log_kept_refl (w : World) : log_kept w w.
Proof. reflexivity. Qed.

Lemma log_kept_trans (w1 w2 w3 : World) :
  log_kept w1 w2 -> log_kept w2 w3 -> log_kept w1 w3.
Proof. unfold log_kept. congruence. Qed.

(** The callback of a run received logs nothing when no tool call raises. *)
Lemma run_callbacks_log_nothing (closure : State) (r : Run) (w : World) :
  Forall (fun a => completes a = true) (actions_of r) ->
  errors (run (fetchOpenRun_settled closure (inr (Some r))) w) = errors w
  /\ errors (run (pollCurrentRunStatus_settled closure (inr r)) w) = errors w.
Proof.
  intros Hall.
  destruct (String.eqb (status r) "requires_action") eqn:Hstatus.
  - apply String.eqb_eq in Hstatus.
    pose proof (fetchOpenRun_requires_action closure r w Hstatus) as Hopen.
    pose proof (pollCurrentRunStatus_requires_action closure r w Hstatus) as Hpoll.
    set (w1 := run (setCurrentRun r) w) in *.
    destruct (executeAssistantActions_returns closure r w1 Hall) as [outputs Hret].
    pose proof (framed_executeAssistantActions closure r w1) as F.
    unfold run. unfold run in F. rewrite Hopen, Hpoll.
    destruct (executeAssistantActions closure r w1) as [[e|o] w'];
      cbn [fst snd] in *; [discriminate|].
    cbn. rewrite (frame_errors _ _ F). split; reflexivity.
  - unfold fetchOpenRun_settled, pollCurrentRunStatus_settled, settle,
      fetchOpenRun_then, pollCurrentRunStatus_then.
    rewrite Hstatus. destruct (isRunActive (Some r)); split; reflexivity.
Qed.

Lemma chained_log (c : Chain) (settled next : M unit) (w : World) :
  fst (settled w) = inr tt ->
  (forall w0, fst (next w0) = inr tt /\ errors (run next w0) = errors w0) ->
  errors (run (chained c settled next) w) = errors (run settled w).
Proof.
  intros Hret Hnext. destruct c; [reflexivity|].
  unfold chained, run, try_catch, bind in *.
  destruct (settled w) as [[e|[]] w1]; cbn [fst snd] in *; [discriminate|].
  destruct (Hnext w1) as [Hn He]. destruct (next w1) as [[e|[]] w2];
    cbn [fst snd] in *; [discriminate | exact He].
Qed.

(** X16: the component logs an error only when something fails.  A step
    that is no rejected request, and in which no tool call of the run
    received raises, leaves the error log as it was. *)
Theorem nothing_is_logged_unless_something_fails (ev : Event) (w w' : World) :
  step ev w = Some w' ->
  nothing_fails ev ->
  errors w' = errors w.
Proof.
  intros Hstep Hev. destruct ev as [ms|n|n r|text|].
  - cbn in Hstep. destruct (0 <=? ms)%Z; [|discriminate].
    injection Hstep as <-. reflexivity.
  - cbn in Hstep. destruct (nth_error (timers w) n) as [t|]; [|discriminate].
    destruct (due t <=? now w)%Z; [|discriminate]. injection Hstep as <-.
    rewrite turn_errors. unfold pollCurrentRunStatus.
    destruct (currentRun (timer_env t)); reflexivity.
  - apply step_Settle in Hstep. destruct Hstep as [p [callback [Hp [Hd ->]]]].
    rewrite turn_errors.
    destruct r as [data|e]; [|destruct Hev]. cbn in Hev.
    unfold deliver in Hd.
    destruct (request p), data; cbn in Hd; try discriminate; injection Hd as <-;
      unfold actions_carried in Hev; cbn [run_carried] in Hev.
    + destruct (chain p), newMessages; reflexivity.
    + rewrite chained_log.
      * destruct run0 as [r|]; [|reflexivity].
        exact (proj1 (run_callbacks_log_nothing (env p) r
                        (with_runChanged false
                           (with_pending (remove_nth n (pending w)) w)) Hev)).
      * apply (settle_returns (inr run0) (fetchOpenRun_then (env p)) Logger_error).
        reflexivity.
      * intros w0. split; reflexivity.
    + exact (proj2 (run_callbacks_log_nothing (env p) run0
                      (with_runChanged false
                         (with_pending (remove_nth n (pending w)) w)) Hev)).
    + reflexivity.
    + reflexivity.
  - cbn in Hstep. destruct (input_enabled (state w)); [|discriminate].
    injection Hstep as <-. reflexivity.
  - cbn in Hstep. destruct (input_enabled (state w)); [|discriminate].
    injection Hstep as <-. reflexivity.
Qed.

(** *** Errors of one tool call *)

(** The calls that complete are the calls that raise nothing. *)
Lemma completes_raises (action : ToolCall) :
  completes action = true <-> raises action = None.
Proof.
  unfold completes, raises, handled_names, includes.
  destruct (String.eqb (type action) "function"); [|split; reflexivity].
  destruct (arguments (function action)) as [|args]; [split; discriminate|].
  cbn [existsb orb].
  destruct (String.eqb (name (function action)) "changeMapZoomLevel") eqn:Ez.
  { apply String.eqb_eq in Ez. rewrite Ez. cbn [String.eqb Ascii.eqb Bool.eqb orb andb].
    destruct (nullish args); split; try discriminate; reflexivity. }
  destruct (String.eqb (name (function action)) "changeMapCenter") eqn:Ec.
  { apply String.eqb_eq in Ec. rewrite Ec. cbn [String.eqb Ascii.eqb Bool.eqb orb andb].
    destruct (nullish args), (printable (field args "latitude")),
      (printable (field args "longitude")); split; try discriminate; reflexivity. }
  destruct (String.eqb (name (function action)) "addLocationsToMap") eqn:Ea.
  { cbn [orb andb]. destruct (nullish args), (measurable (field args "markers"));
      split; try discriminate; reflexivity. }
  split; reflexivity.
Qed.

(** X17: what one turn of the tool loop raises.  A call of type "function"
    whose arguments are not JSON raises a SyntaxError, whatever its name; a
    call to one of the three handlers raises a TypeError when its arguments
    are [null]; so does "changeMapCenter" when the latitude or the longitude
    cannot be converted to a string for its log line, and
    "addLocationsToMap" when [markers] is missing or [null] or has a length
    that cannot be converted.  A call that raises changes nothing itself
    and records no output; every other call returns, with one more output
    exactly when it reached a handler. *)
Theorem executeAction_raises (closure : State) (action : ToolCall)
    (outputs : list ToolOutput) (w : World) :
  match raises action with
  | Some e => executeAction closure action outputs w = (inl e, w)
  | None =>
      fst (executeAction closure action outputs w) =
        inr (outputs ++ if handled action then [output_for action] else [])
  end.
Proof.
  unfold raises, handled, output_for, success_string, executeAction,
    handled_names, includes.
  destruct (String.eqb (type action) "function"); cbn [andb existsb orb].
  2:{ cbn. rewrite app_nil_r. reflexivity. }
  destruct (arguments (function action)) as [|args]; [reflexivity|].
  cbn [JSON_parse lift bind].
  destruct (String.eqb (name (function action)) "changeMapZoomLevel") eqn:Ez.
  { apply String.eqb_eq in Ez. rewrite Ez. cbn [String.eqb Ascii.eqb Bool.eqb orb andb].
    destruct (nullish args) eqn:Hn.
    - destruct args; try discriminate Hn; reflexivity.
    - rewrite (get_field _ _ Hn). reflexivity. }
  destruct (String.eqb (name (function action)) "changeMapCenter") eqn:Ec.
  { apply String.eqb_eq in Ec. rewrite Ec. cbn [String.eqb Ascii.eqb Bool.eqb orb andb].
    destruct (nullish args) eqn:Hn.
    - destruct args; try discriminate Hn; reflexivity.
    - rewrite !(get_field _ _ Hn). cbn [lift bind].
      unfold changeMapCenter, bind, lift, ToString.
      destruct (printable (field args "latitude")),
        (printable (field args "longitude")); reflexivity. }
  destruct (String.eqb (name (function action)) "addLocationsToMap") eqn:Ea.
  { cbn [orb andb]. destruct (nullish args) eqn:Hn.
    - destruct args; try discriminate Hn; reflexivity.
    - rewrite !(get_field _ _ Hn). cbn [lift bind].
      unfold addLocationsToMap, bind, lift.
      destruct (measurable (field args "markers")) eqn:Hm; cbn [negb].
      + destruct (get_length_measurable _ Hm) as [Hlen Hstr].
        rewrite Hlen. cbn beta iota. rewrite Hstr. reflexivity.
      + destruct (get_length_unmeasurable _ Hm) as [Hlen|[Hlen Hstr]]; rewrite Hlen;
          [reflexivity|].
        cbn beta iota. rewrite Hstr. reflexivity. }
  cbn. rewrite app_nil_r. reflexivity.
Qed.

(** *** The other responses that bring a run *)

(** X18: the answer to a submission of tool outputs stores the run it
    brings, whatever [currentRun] holds by then, and does nothing else; a
    poll timer is set exactly when that run is active. *)
Theorem submission_answer_stores_the_run
    (w : World) (n : nat) (p : Pending) (r : Run) :
  nth_error (pending w) n = Some p ->
  is_submission (request p) = true ->
  exists w',
    step (Settle n (Fulfilled (OutputsData r))) w = Some w'
    /\ state w' = with_currentRun (Some r) (state w)
    /\ pending w' = remove_nth n (pending w)
    /\ errors w' = errors w
    /\ timers w' =
         timers w ++
           (if isRunActive (Some r) then
              [{| timeoutId := nextTimeoutId w; due := (now w + 2000)%Z;
                  timer_env := state w' |}]
            else []).
Proof.
  intros Hp Hreq. eexists. split.
  { apply (step_Settle_eq _ _ _ p); [exact Hp|]. unfold deliver.
    destruct (request p); try discriminate Hreq. reflexivity. }
  rewrite turn_spec. unfold armed. cbn.
  destruct (isRunActive (Some r)); cbn; rewrite ?app_nil_r; repeat split.
Qed.

(** X19: hydration stores an open run only when it is active.  When the
    server reports no run, or a run that has ended, the state is left as it
    was but for [loading], no timer is set, nothing is sent and nothing is
    logged: no tool call of that run is executed. *)
Theorem ended_open_run_is_ignored
    (w : World) (n : nat) (p : Pending) (latest : option Run) :
  nth_error (pending w) n = Some p ->
  request p = GetRuns ->
  chain p = Hydrating ->
  isRunActive latest = false ->
  exists w',
    step (Settle n (Fulfilled (RunsData latest))) w = Some w'
    /\ state w' = with_loading false (state w)
    /\ pending w' = remove_nth n (pending w)
    /\ timers w' = timers w
    /\ errors w' = errors w.
Proof.
  intros Hp Hreq Hchain Hinactive. eexists. split.
  { apply (step_Settle_eq _ _ _ p); [exact Hp|]. unfold deliver.
    rewrite Hreq, Hchain. reflexivity. }
  rewrite turn_spec. unfold armed.
  unfold chained, fetchOpenRun_settled, settle, fetchOpenRun_then.
  destruct latest as [r|]; [rewrite Hinactive|]; cbn; repeat split.
Qed.

(** *** A whole round *)

(** X20: a whole round, when nothing fails.  From a quiet component (no
    request in flight, no timer, input enabled) the user presses Enter; the
    prompt is accepted with an active run; the run is polled once, 2000 ms
    later, and has ended; the messages are fetched.
    After that the chat shows exactly the messages fetched, sorted (the
    message appended for the prompt is replaced), the input is enabled
    again, nothing is in flight, no timer is pending, nothing was logged and
    the map is as it was. *)
Theorem round_shows_the_fetched_messages
    (w : World) (m : Message) (r r' : Run) (fetched : list Message) :
  pending w = [] ->
  timers w = [] ->
  input_enabled (state w) = true ->
  isRunActive (Some r) = true ->
  isRunActive (Some r') = false ->
  exists w',
    exec (round m r r' fetched) w = Some w'
    /\ messages (state w') = sort_by_created_at fetched
    /\ currentRun (state w') = Some r'
    /\ input_enabled (state w') = true
    /\ userPrompt (state w') = ""
    /\ pending w' = []
    /\ timers w' = []
    /\ errors w' = errors w
    /\ map_state (state w') = map_state (state w).
Proof.
  intros Hp Ht Hinput Hactive Hended.
  destruct w as [s pend tim errs t nid rc]. cbn in Hp, Ht, Hinput. subst pend tim.
  assert (Hloading : loading s = false).
  { unfold input_enabled in Hinput. apply andb_true_iff in Hinput.
    destruct Hinput as [Hl _]. apply negb_true_iff in Hl. exact Hl. }
  set (s2 := with_assistantWriting true
               (with_currentRun (Some r)
                  (with_messages (messages s ++ [m]) (with_userPrompt "" s)))).
  set (w1 := {| state := with_userPrompt "" s;
                pending := [{| request := PostMessage (userPrompt s); env := s;
                               chain := Standalone |}];
                timers := []; errors := errs; now := t; nextTimeoutId := nid;
                runChanged := false |}).
  set (w2 := {| state := s2; pending := [];
                timers := [{| timeoutId := nid; due := (t + poll_delay)%Z;
                              timer_env := s2 |}];
                errors := errs; now := t; nextTimeoutId := S nid;
                runChanged := false |}).
  set (w4 := {| state := s2;
                pending := [{| request := GetRun (run_id r); env := s2;
                               chain := Standalone |}];
                timers := []; errors := errs; now := (t + 2000)%Z;
                nextTimeoutId := S nid; runChanged := false |}).
  set (w5 := {| state := with_currentRun (Some r') s2;
                pending := [{| request := GetMessages; env := initialState;
                               chain := Standalone |}];
                timers := []; errors := errs; now := (t + 2000)%Z;
                nextTimeoutId := S nid; runChanged := false |}).
  assert (H1 : step Enter {| state := s; pending := []; timers := []; errors := errs;
                             now := t; nextTimeoutId := nid; runChanged := rc |}
               = Some w1).
  { cbn [step state]. rewrite Hinput. reflexivity. }
  assert (H2 : step (Settle 0 (Fulfilled (MessageData m r))) w1 = Some w2).
  { rewrite (step_Settle_eq 0 _ w1 _ (handlePromptSubmission_settled s (inr (m, r))))
      by reflexivity.
    rewrite turn_spec. unfold armed. cbn. rewrite Hactive. reflexivity. }
  assert (H3 : step (Tick 2000) w2 = Some (with_now (t + 2000)%Z w2)) by reflexivity.
  assert (H4 : step (Fire 0) (with_now (t + 2000)%Z w2) = Some w4).
  { cbn [step timers with_now w2 nth_error due now]. unfold poll_delay.
    rewrite Z.leb_refl. reflexivity. }
  assert (H5 : step (Settle 0 (Fulfilled (RunData r'))) w4 = Some w5).
  { rewrite (step_Settle_eq 0 _ w4 _ (pollCurrentRunStatus_settled s2 (inr r')))
      by reflexivity.
    rewrite turn_spec. unfold armed.
    unfold pollCurrentRunStatus_settled, settle, pollCurrentRunStatus_then.
    rewrite Hended. cbn. rewrite Hended. reflexivity. }
  eexists. split.
  { unfold round. cbn [exec]. rewrite H1, H2, H3, H4, H5. cbn [exec step].
    reflexivity. }
  cbn. rewrite missing_nil. unfold input_enabled. cbn. rewrite Hloading.
  repeat split.
Qed.

(** *** The skeleton *)

Lemma loading_over_refl (w : World) : loading_over w w.
Proof. intros H. exact H. Qed.

Lemma loading_over_trans (w1 w2 w3 : World) :
  loading_over w1 w2 -> loading_over w2 w3 -> loading_over w1 w3.
Proof. intros H12 H23 H. apply H23, H12, H. Qed.

Lemma frame_loading_over (w w' : World) : frame w w' -> loading_over w w'.
Proof. intros [] H. congruence. Qed.

Ltac loading_leaf :=
  first
    [ solve [intros ? H; exact H]
    | solve [intros ? _; reflexivity]
    | solve [intros ?; apply frame_loading_over, framed_executeAssistantActions] ].

Ltac loading_is_over := respects_by loading_over_refl loading_over_trans loading_leaf.

Lemma deliver_loading_over p r callback :
  deliver p r = Some callback -> respects loading_over callback.
Proof.
  unfold deliver. intros Hd.
  destruct (request p), r as [data|e]; try destruct data;
    cbn in Hd; try discriminate; injection Hd as <-;
    open_callbacks; loading_is_over.
Qed.

Lemma step_loading_over (ev : Event) (w w' : World) :
  step ev w = Some w' -> loading_over w w'.
Proof.
  intros Hstep. destruct ev as [ms|n|n r|text|].
  - cbn in Hstep. destruct (0 <=? ms)%Z; [|discriminate].
    injection Hstep as <-. intros H; exact H.
  - cbn in Hstep. destruct (nth_error (timers w) n) as [t|]; [|discriminate].
    destruct (due t <=? now w)%Z; [|discriminate]. injection Hstep as <-.
    unfold loading_over. rewrite turn_state.
    unfold pollCurrentRunStatus. destruct (currentRun (timer_env t)); intros H; exact H.
  - apply step_Settle in Hstep. destruct Hstep as [p [callback [Hp [Hd ->]]]].
    unfold loading_over. rewrite turn_state.
    exact (deliver_loading_over _ _ _ Hd
             (with_runChanged false (with_pending (remove_nth n (pending w)) w))).
  - cbn in Hstep. destruct (input_enabled (state w)); [|discriminate].
    injection Hstep as <-. intros H; exact H.
  - cbn in Hstep. destruct (input_enabled (state w)); [|discriminate].
    injection Hstep as <-. intros H; exact H.
Qed.

(** X21: the skeleton never returns.  [setLoading] is only ever called with
    [false], at the end of hydration: once [loading] is false it is false
    after every sequence of events, whatever is answered, fails or raises,
    so the component never goes back from the chat to the skeleton. *)
Theorem skeleton_never_returns (evs : list Event) (w w' : World) :
  exec evs w = Some w' ->
  loading (state w) = false ->
  loading (state w') = false.
Proof.
  revert w. induction evs as [|ev rest IH]; intros w Hexec Hw.
  - injection Hexec as <-. exact Hw.
  - cbn [exec] in Hexec. destruct (step ev w) as [w1|] eqn:Hstep; [|discriminate].
    apply (IH w1 Hexec). exact (step_loading_over _ _ _ Hstep Hw).
Qed.

(** *** Two prompts in a row *)

(** X22: nothing keeps the user from pressing Enter again before the answer
    has come: the input is disabled by the answer, not by the submission, and
    the prompt is not looked at.  The second Enter sends the empty prompt
    that the first has left.  When both are accepted, the second answer
    appends its message to the messages of the render of the second Enter,
    which has not seen the first answer: the message of the first prompt is
    gone from the chat, and the run stored is the second. *)
Theorem second_prompt_replaces_the_first
    (w : World) (m1 m2 : Message) (r1 r2 : Run) :
  input_enabled (state w) = true ->
  exists w2 w3 w4,
    exec [Enter; Enter] w = Some w2
    /\ pending w2 =
         pending w ++
           [{| request := PostMessage (userPrompt (state w)); env := state w;
               chain := Standalone |};
            {| request := PostMessage ""; env := with_userPrompt "" (state w);
               chain := Standalone |}]
    /\ step (Settle (List.length (pending w)) (Fulfilled (MessageData m1 r1))) w2
       = Some w3
    /\ messages (state w3) = messages (state w) ++ [m1]
    /\ input_enabled (state w3) = false
    /\ step (Settle (List.length (pending w)) (Fulfilled (MessageData m2 r2))) w3
       = Some w4
    /\ messages (state w4) = messages (state w) ++ [m2]
    /\ currentRun (state w4) = Some r2
    /\ pending w4 = pending w.
Proof.
  intros Hinput.
  assert (Hagain : input_enabled (with_userPrompt "" (state w)) = true)
    by exact Hinput.
  set (p1 := {| request := PostMessage (userPrompt (state w)); env := state w;
                chain := Standalone |}).
  set (p2 := {| request := PostMessage ""; env := with_userPrompt "" (state w);
                chain := Standalone |}).
  set (w2 := with_pending (pending w ++ [p1; p2])
               (with_state (with_userPrompt "" (state w)) (with_runChanged false w))).
  assert (H12 : exec [Enter; Enter] w = Some w2).
  { cbn [exec step]. rewrite Hinput. rewrite turn_state. cbn [run handlePromptSubmission].
    unfold turn, render. cbn. rewrite Hagain. cbn. rewrite <- app_assoc.
    reflexivity. }
  assert (H3 : step (Settle (List.length (pending w)) (Fulfilled (MessageData m1 r1))) w2
               = Some (turn (handlePromptSubmission_settled (env p1) (inr (m1, r1)))
                         (with_pending (pending w ++ [p2]) w2))).
  { rewrite (step_Settle_eq _ _ w2 p1
               (handlePromptSubmission_settled (env p1) (inr (m1, r1)))).
    - cbn [pending w2 with_pending]. rewrite remove_nth_split. reflexivity.
    - cbn [pending w2 with_pending].
      rewrite nth_error_app2, Nat.sub_diag by apply Nat.le_refl. reflexivity.
    - reflexivity. }
  set (w3 := turn _ _) in H3.
  assert (Hp3 : pending w3 = pending w ++ [p2]).
  { unfold w3. rewrite turn_pending. reflexivity. }
  assert (H4 : step (Settle (List.length (pending w)) (Fulfilled (MessageData m2 r2))) w3
               = Some (turn (handlePromptSubmission_settled (env p2) (inr (m2, r2)))
                         (with_pending (pending w) w3))).
  { rewrite (step_Settle_eq _ _ w3 p2
               (handlePromptSubmission_settled (env p2) (inr (m2, r2)))).
    - rewrite Hp3, remove_nth_last. reflexivity.
    - rewrite Hp3. apply nth_error_last.
    - reflexivity. }
  exists w2, w3. eexists. split; [exact H12|]. split; [reflexivity|].
  split; [exact H3|].
  split. { unfold w3. rewrite turn_state. reflexivity. }
  split. { unfold w3. rewrite turn_state. unfold input_enabled. cbn.
           apply andb_false_r. }
  split; [exact H4|].
  split. { rewrite turn_state. reflexivity. }
  split. { rewrite turn_state. reflexivity. }
  rewrite turn_pending. reflexivity.
Qed.

End Properties.

(** ** The properties on sample runs *)

#[local] Existing Instance sample_objects.

(** The poll is answered with a run that requires one zoom call: the zoom
    level is set and the output is submitted. *)
Lemma outputs_submitted_witness :
  status (run_requiring [zoom_call]) = "requires_action"
  /\ submissions
       (run (pollCurrentRunStatus_settled initialState (inr (run_requiring [zoom_call])))
          blank)
     = [PostOutputs "run_1"
          [{| tool_call_id := "call_1";
              output := "Map mapZoomLevel level set successfully." |}]]
  /\ mapZoomLevel
       (state
          (run (pollCurrentRunStatus_settled initialState
                  (inr (run_requiring [zoom_call]))) blank))
     = VNumber 5 0.
Proof.
  pose proof (outputs_submitted_when_requires_action initialState
                (run_requiring [zoom_call]) blank)
    as [Hsub [_ [_ [_ [_ [_ [Hacted _]]]]]]].
  split; [reflexivity|]. split; [exact Hsub|].
  destruct (Hacted eq_refl) as [Hmap _].
  exact (f_equal (fun t => snd (fst t)) Hmap).
Defined.

(** C1, as stated, fails: the run received has the status "requires_action",
    the arguments of its tool call are not JSON, the error is logged and no
    request is sent, after the poll as after the open-run fetch. *)
Lemma unparsable_arguments_submit_nothing :
  status (run_requiring [zoom_call_not_json]) = "requires_action"
  /\ pending
       (run (pollCurrentRunStatus_settled initialState
               (inr (run_requiring [zoom_call_not_json]))) blank) = []
  /\ errors
       (run (pollCurrentRunStatus_settled initialState
               (inr (run_requiring [zoom_call_not_json]))) blank) = [SyntaxError]
  /\ pending
       (run (fetchOpenRun_settled initialState
               (inr (Some (run_requiring [zoom_call_not_json])))) blank) = [].
Proof. repeat apply conj; vm_compute; reflexivity. Qed.

(** A zoom call, a call that centres the map and a call that marks one
    location. *)
Lemma executeAction_dispatch_witness :
  executeAction initialState zoom_call [] blank =
    (inr [{| tool_call_id := "call_1";
             output := "Map mapZoomLevel level set successfully." |}],
     run (changeMapZoomLevel initialState (VNumber 5 0)) blank)
  /\ executeAction initialState center_call [] blank =
       (inr [{| tool_call_id := "call_7";
                output := "Map centered set successfully." |}],
        run (changeMapCenter initialState (VNumber 488606 (-4)) (VNumber 23376 (-4))
               (VNumber 14 0)) blank)
  /\ executeAction initialState mark_call [] blank =
       (inr [{| tool_call_id := "call_2";
                output := "Map locations marked successfully." |}],
        run (addLocationsToMap initialState (VArray [VString "Louvre"])
               (VNumber 488606 (-4)) (VNumber 23376 (-4)) (VNumber 14 0)) blank)
  /\ executeAction initialState unknown_call_not_json [] blank
     = (inl SyntaxError, blank).
Proof.
  split; [|split; [|split]].
  - exact (proj1 (executeAction_dispatches_three_names initialState zoom_call [] blank
                    (VObject [("zoomLevel", VNumber 5 0)]) eq_refl)
             eq_refl eq_refl eq_refl).
  - exact (proj1 (proj2
             (executeAction_dispatches_three_names initialState center_call [] blank _
                eq_refl)) eq_refl eq_refl eq_refl eq_refl eq_refl).
  - exact (proj1 (proj2 (proj2
             (executeAction_dispatches_three_names initialState mark_call [] blank _
                eq_refl))) eq_refl eq_refl eq_refl eq_refl).
  - apply (proj2 (proj2 (proj2
             (executeAction_dispatches_three_names initialState unknown_call_not_json
                [] blank VNull eq_refl)))).
    cbn. intros [H|[H|[H|[]]]]; discriminate H.
Defined.

(** C2, as stated, fails: a function tool call named "addLocationsToMap"
    whose arguments parse (to the empty object) raises when the handler
    measures the missing [markers], and no output is recorded. *)
Lemma missing_markers_record_no_output :
  type mark_call_without_markers = "function"
  /\ name (function mark_call_without_markers) = "addLocationsToMap"
  /\ executeAction initialState mark_call_without_markers [] blank
     = (inl TypeError, blank).
Proof. repeat apply conj; vm_compute; reflexivity. Qed.

(** Numbers for the centre, one marker. *)
Lemma tool_handlers_witness :
  printable (VNumber 488606 (-4)) = true
  /\ printable (VNumber 23376 (-4)) = true
  /\ fst (changeMapCenter initialState (VNumber 488606 (-4)) (VNumber 23376 (-4))
            (VNumber 14 0) blank)
     = inr "Map centered set successfully."
  /\ mapCenter
       (state (run (changeMapCenter initialState (VNumber 488606 (-4))
                      (VNumber 23376 (-4)) (VNumber 14 0)) blank))
     = {| lat := VNumber 488606 (-4); lng := VNumber 23376 (-4) |}.
Proof.
  destruct (proj1 (proj2 (proj2
              (tool_handlers_update_map_state initialState blank (VNumber 14 0)
                 (VNumber 488606 (-4)) (VNumber 23376 (-4)) [])))
              eq_refl eq_refl) as [Hret [Hcenter _]].
  repeat apply conj; [reflexivity | reflexivity | exact Hret | exact Hcenter].
Defined.

(** A latitude that cannot be converted to a string, and markers whose
    length cannot: the handler raises before it has set anything. *)
Lemma unprintable_arguments_raise :
  completes center_call_unprintable = false
  /\ executeAction initialState center_call_unprintable [] blank
     = (inl TypeError, blank)
  /\ completes mark_call_unprintable = false
  /\ executeAction initialState mark_call_unprintable [] blank
     = (inl TypeError, blank).
Proof. repeat apply conj; vm_compute; reflexivity. Qed.

(** Hydration fetches one message and finds an open run whose only tool
    call has such a latitude: the handler raises before [setMessages], the
    error is logged, nothing is submitted and the fetched message stays. *)
Lemma unprintable_latitude_is_logged :
  exec [Settle 0 (Fulfilled (MessagesData (Some [message_late])));
        Settle 0 (Fulfilled (RunsData (Some (run_requiring [center_call_unprintable]))))]
    mount
  = Some (after [Settle 0 (Fulfilled (MessagesData (Some [message_late])));
                 Settle 0 (Fulfilled
                             (RunsData (Some (run_requiring [center_call_unprintable]))))])
  /\ errors (after [Settle 0 (Fulfilled (MessagesData (Some [message_late])));
                    Settle 0 (Fulfilled
                                (RunsData
                                   (Some (run_requiring [center_call_unprintable]))))])
     = [TypeError]
  /\ messages
       (state (after [Settle 0 (Fulfilled (MessagesData (Some [message_late])));
                      Settle 0 (Fulfilled
                                  (RunsData
                                     (Some (run_requiring [center_call_unprintable]))))]))
     = [message_late]
  /\ pending (after [Settle 0 (Fulfilled (MessagesData (Some [message_late])));
                     Settle 0 (Fulfilled
                                 (RunsData
                                    (Some (run_requiring [center_call_unprintable]))))])
     = [].
Proof. repeat apply conj; vm_compute; reflexivity. Qed.

(** C4, as stated, fails: the poll has been answered with a completed run
    and no timer is pending; then the answer to the submission of the tool
    outputs, sent before that poll, arrives with the run in progress, and a
    second timer is set. *)
Lemma late_submission_answer_restarts_polling :
  exec poll_answered_completed mount = Some (after poll_answered_completed)
  /\ currentRun (state (after poll_answered_completed)) = Some run_completed
  /\ isRunActive (Some run_completed) = false
  /\ nextTimeoutId (after poll_answered_completed) = 1
  /\ step (Settle 0 (Fulfilled (OutputsData run_in_progress)))
       (after poll_answered_completed)
     = Some (after (poll_answered_completed
                    ++ [Settle 0 (Fulfilled (OutputsData run_in_progress))]))
  /\ nextTimeoutId
       (after (poll_answered_completed
               ++ [Settle 0 (Fulfilled (OutputsData run_in_progress))])) = 2.
Proof. repeat apply conj; vm_compute; reflexivity. Qed.

(** The poll in flight is answered with a completed run. *)
Lemma polling_stops_witness :
  exists w',
    step (Settle 1 (Fulfilled (RunData run_completed)))
      (after (hydrated_requiring ++ [Tick 2000; Fire 0])) = Some w'
    /\ timers w' = timers (after (hydrated_requiring ++ [Tick 2000; Fire 0]))
    /\ nextTimeoutId w' = nextTimeoutId (after (hydrated_requiring ++ [Tick 2000; Fire 0]))
    /\ currentRun (state w') = Some run_completed
    /\ pending w' =
         remove_nth 1 (pending (after (hydrated_requiring ++ [Tick 2000; Fire 0])))
         ++ [{| request := GetMessages; env := initialState; chain := Standalone |}].
Proof.
  eapply (proj1 (proj2 polling_stops_until_an_active_run_arrives)).
  - vm_compute. reflexivity.
  - reflexivity.
  - reflexivity.
Defined.



(** C7, on the code: the only cancellation is the cleanup that
    [pollRunStatus] returns, and the effect never runs it.  The timer set
    for the open run (id 0, whose cleanup [pollRunStatus] returned) is still
    pending, beside the new one, after [currentRun] was replaced half a
    second later; running the cleanup would have cleared it.  Both timers
    are due 2000 ms after they were set. *)
Lemma replaced_run_timer_is_never_cleared :
  exec run_replaced mount = Some (after run_replaced)
  /\ option_map status (currentRun (state (after run_replaced))) = Some "in_progress"
  /\ map (fun t => (timeoutId t, due t, option_map status (currentRun (timer_env t))))
       (timers (after run_replaced))
     = [(0, 2000%Z, Some "requires_action"); (1, 2500%Z, Some "in_progress")]
  /\ fst (pollRunStatus (state (after hydrated_requiring)) mount) = inr (Some 0)
  /\ map timeoutId (timers (run (run_cleanup 0) (after run_replaced))) = [1].
Proof. repeat apply conj; vm_compute; reflexivity. Qed.

(** A zoom call, a call of another type, a call that marks one location. *)
Lemma executeAssistantActions_outputs_witness :
  Forall (fun a => completes a = true)
    (actions_of (run_requiring [zoom_call; retrieval_call; mark_call]))
  /\ fst (executeAssistantActions initialState
            (run_requiring [zoom_call; retrieval_call; mark_call]) blank)
     = inr [{| tool_call_id := "call_1";
               output := "Map mapZoomLevel level set successfully." |};
            {| tool_call_id := "call_2";
               output := "Map locations marked successfully." |}].
Proof.
  assert (H : Forall (fun a => completes a = true)
                (actions_of (run_requiring [zoom_call; retrieval_call; mark_call])))
    by (repeat constructor).
  split; [exact H|].
  exact (proj1 (executeAssistantActions_outputs initialState
                  (run_requiring [zoom_call; retrieval_call; mark_call]) blank) H).
Defined.

(** C8, as stated, fails: a function tool call of an unknown name whose
    arguments are not JSON is not passed over; it raises, so
    [executeAssistantActions] returns no output at all although the zoom
    call before it has changed the map. *)
Lemma unknown_call_with_bad_arguments_aborts :
  handled unknown_call_not_json = false
  /\ fst (executeAssistantActions initialState
            (run_requiring [zoom_call; unknown_call_not_json]) blank)
     = inl SyntaxError
  /\ mapZoomLevel
       (state (run (executeAssistantActions initialState
                      (run_requiring [zoom_call; unknown_call_not_json])) blank))
     = VNumber 5 0
  /\ executeAction initialState unknown_call_not_json [] blank = (inl SyntaxError, blank).
Proof. repeat apply conj; vm_compute; reflexivity. Qed.

(** One message held, two fetched, one of them the message held. *)
Lemma fetchMessages_witness :
  NoDup (ids [message_late])
  /\ NoDup (ids [message_early; message_late])
  /\ NoDup
       (ids (messages
               (state
                  (run (fetchMessages_settled
                          (with_messages [message_late] initialState)
                          (inr (Some [message_early; message_late]))) blank)))).
Proof.
  assert (H1 : NoDup (ids [message_late])).
  { repeat constructor. intros []. }
  assert (H2 : NoDup (ids [message_early; message_late])).
  { repeat constructor; cbn; intuition discriminate. }
  split; [exact H1|]. split; [exact H2|].
  exact (proj2 (proj2
           (proj1 fetchMessages_sorts_and_keeps_ids_distinct
              (with_messages [message_late] initialState)
              [message_early; message_late] blank)) H1 H2).
Defined.

(** C10, as stated, fails: the last event is a successful [fetchMessages]
    call, its response carries no [newMessages], and the list it leaves is
    not sorted. *)
Lemma fetch_without_newMessages_leaves_list_unsorted :
  exec fetched_nothing_new mount = Some (after fetched_nothing_new)
  /\ messages (state (after fetched_nothing_new)) = [message_late; message_early]
  /\ ~ ascending (messages (state (after fetched_nothing_new))).
Proof.
  split; [vm_compute; reflexivity|]. split; [vm_compute; reflexivity|].
  change (messages (state (after fetched_nothing_new)))
    with [message_late; message_early].
  unfold ascending. intros H. inversion H as [|? ? _ Hall]; subst.
  inversion Hall as [|? ? Hle _]; subst. cbn in Hle. lia.
Qed.

(** ** The further properties on sample runs *)

(** The zoom call is run, the call of an unknown function with arguments
    that are not JSON raises, the marking call is never reached. *)
Lemma raising_call_witness :
  executeActions initialState [zoom_call; unknown_call_not_json; mark_call] [] blank
  = (inl SyntaxError, run (changeMapZoomLevel initialState (VNumber 5 0)) blank).
Proof.
  apply (raising_call_ends_the_loop initialState [zoom_call] [mark_call]
           unknown_call_not_json []
           [{| tool_call_id := "call_1";
               output := "Map mapZoomLevel level set successfully." |}]
           blank (run (changeMapZoomLevel initialState (VNumber 5 0)) blank)).
  - vm_compute. reflexivity.
  - vm_compute. reflexivity.
Defined.

(** A zoom call and a marking call, run with two messages on screen: the
    marking call's annotation is all that is left. *)
Lemma one_annotation_witness :
  Forall (fun a => completes a = true) (actions_of (run_requiring [zoom_call; mark_call]))
  /\ existsb handled (actions_of (run_requiring [zoom_call; mark_call])) = true
  /\ messages
       (state (run (executeAssistantActions initialState
                      (run_requiring [zoom_call; mark_call]))
                 (with_state (with_messages [message_early; message_late] initialState)
                    blank)))
     = [generateAnnotation "Annotated Map" "mark"]
  /\ exists a,
       In a (actions_of (run_requiring [zoom_call; mark_call])) /\ handled a = true
       /\ messages
            (state (run (executeAssistantActions initialState
                           (run_requiring [zoom_call; mark_call]))
                      (with_state
                         (with_messages [message_early; message_late] initialState)
                         blank)))
          = messages initialState ++ [annotation_of a].
Proof.
  assert (H : Forall (fun a => completes a = true)
                (actions_of (run_requiring [zoom_call; mark_call])))
    by (repeat constructor).
  split; [exact H|]. split; [reflexivity|]. split; [vm_compute; reflexivity|].
  exact (proj1 (tool_calls_leave_one_annotation initialState
                  (run_requiring [zoom_call; mark_call])
                  (with_state (with_messages [message_early; message_late] initialState)
                     blank) H) eq_refl).
Defined.

(** Hydration is over, the user types "Paris" and presses Enter, the
    request fails. *)
Lemma failed_prompt_witness :
  input_enabled (state (after (firstn 2 prompt_accepted))) = true
  /\ exists w1 w2 w3,
       step (Typing "Paris") (after (firstn 2 prompt_accepted)) = Some w1
       /\ userPrompt (state w1) = "Paris"
       /\ step Enter w1 = Some w2
       /\ userPrompt (state w2) = ""
       /\ pending w2 =
            pending (after (firstn 2 prompt_accepted))
            ++ [{| request := PostMessage "Paris"; env := state w1;
                   chain := Standalone |}]
       /\ step (Settle (List.length (pending (after (firstn 2 prompt_accepted))))
                 (Rejected (AxiosError "Network Error"))) w2 = Some w3
       /\ state w3 = state w2
       /\ messages (state w3) = messages (state (after (firstn 2 prompt_accepted)))
       /\ pending w3 = pending (after (firstn 2 prompt_accepted))
       /\ timers w3 = timers (after (firstn 2 prompt_accepted))
       /\ errors w3 =
            errors (after (firstn 2 prompt_accepted)) ++ [AxiosError "Network Error"].
Proof.
  assert (H : input_enabled (state (after (firstn 2 prompt_accepted))) = true)
    by (vm_compute; reflexivity).
  split; [exact H|].
  exact (failed_prompt_is_lost (after (firstn 2 prompt_accepted)) "Paris"
           (AxiosError "Network Error") H).
Defined.

(** The prompt "Paris" is in flight and is accepted with a queued run. *)
Lemma accepted_prompt_witness :
  exists w',
    step (Settle 0 (Fulfilled (MessageData message_early run_queued)))
      (after (firstn 4 prompt_accepted)) = Some w'
    /\ messages (state w') = [message_late; message_early]
    /\ currentRun (state w') = Some run_queued
    /\ assistantWriting (state w') = true
    /\ input_enabled (state w') = false.
Proof.
  destruct (accepted_prompt_is_appended (after (firstn 4 prompt_accepted)) 0
              {| request := PostMessage "Paris";
                 env := state (after (firstn 3 prompt_accepted));
                 chain := Standalone |}
              "Paris" message_early run_queued)
    as [w' [Hstep [Hm [Hr [Hw [Hi _]]]]]].
  - vm_compute. reflexivity.
  - reflexivity.
  - exists w'. repeat apply conj; assumption.
Defined.

(** The prompt was accepted; the run is polled, completes, and the fetch of
    the messages fails: the assistant is still marked as writing. *)
Lemma input_stays_disabled_witness :
  assistantWriting (state (after prompt_accepted)) = true
  /\ assistantWriting
       (state (after (run_ended ++ [Settle 0 (Rejected (AxiosError "Network Error"))])))
     = true
  /\ input_enabled
       (state (after (run_ended ++ [Settle 0 (Rejected (AxiosError "Network Error"))])))
     = false.
Proof.
  assert (H : assistantWriting (state (after prompt_accepted)) = true)
    by (vm_compute; reflexivity).
  split; [exact H|].
  apply (input_stays_disabled_until_messages_arrive
           [Tick 2000; Fire 0; Settle 0 (Fulfilled (RunData run_completed));
            Settle 0 (Rejected (AxiosError "Network Error"))]
           (after prompt_accepted)).
  - vm_compute. reflexivity.
  - exact H.
  - repeat constructor.
Defined.

(** The run has ended and the fetch of the messages is the only request in
    flight; it fails, and ten seconds later nothing has moved. *)
Lemma failed_last_fetch_witness :
  exists w',
    step (Settle 0 (Rejected (AxiosError "Network Error"))) (after run_ended) = Some w'
    /\ errors w' = errors (after run_ended) ++ [AxiosError "Network Error"]
    /\ exec [Tick 10000] w' <> None
    /\ forall evs w'',
         exec evs w' = Some w'' ->
         input_enabled (state w'') = false
         /\ state w'' = state (after run_ended)
         /\ pending w'' = []
         /\ timers w'' = [].
Proof.
  destruct (failed_last_fetch_disables_the_chat_for_good (after run_ended)
              {| request := GetMessages; env := initialState; chain := Standalone |}
              (AxiosError "Network Error"))
    as [w' [Hstep [Herr Hall]]]; try (vm_compute; reflexivity).
  exists w'. repeat apply conj; try assumption.
  cbn [exec step]. discriminate.
Defined.

(** The open run is queued; its first poll is answered with the run in
    progress. *)
Lemma active_poll_response_witness :
  exists w',
    step (Settle 0 (Fulfilled (RunData run_in_progress)))
      (after (hydrated_queued ++ [Tick 2000; Fire 0])) = Some w'
    /\ currentRun (state w') = Some run_in_progress
    /\ timers w' = [{| timeoutId := 1; due := 4000; timer_env := state w' |}]
    /\ nextTimeoutId w' = 2.
Proof.
  destruct (active_poll_response_sets_the_next_timer
              (after (hydrated_queued ++ [Tick 2000; Fire 0])) 0
              {| request := GetRun "run_1";
                 env := state (after hydrated_queued); chain := Standalone |}
              run_in_progress)
    as [w' [Hstep [Hr [Ht [Hn _]]]]]; try (vm_compute; reflexivity).
  exists w'. repeat apply conj; assumption.
Defined.

(** The server returns two messages, then an open run that requires a zoom
    call: the chat shows the zoom annotation alone. *)
Lemma hydration_drops_witness :
  status (run_requiring [zoom_call]) = "requires_action"
  /\ exists w1 w2 a,
       step (Settle 0 (Fulfilled (MessagesData (Some [message_late; message_early]))))
         mount = Some w1
       /\ messages (state w1) = sort_by_created_at [message_late; message_early]
       /\ step (Settle 0 (Fulfilled (RunsData (Some (run_requiring [zoom_call])))))
            w1 = Some w2
       /\ In a (actions_of (run_requiring [zoom_call]))
       /\ messages (state w2) = [annotation_of a].
Proof.
  split; [reflexivity|].
  apply (hydration_with_tool_calls_drops_the_fetched_messages
           [message_late; message_early] (run_requiring [zoom_call])).
  - reflexivity.
  - repeat constructor.
  - reflexivity.
Defined.

(** The answer to the submission of the tool outputs replaces the run: a
    second timer is added, the first is kept. *)
Lemma timers_leave_witness :
  exists kept added,
    timers (after run_replaced) = kept ++ added
    /\ kept = timers (after (hydrated_requiring ++ [Tick 500]))
    /\ added = [{| timeoutId := 1; due := 2500; timer_env := state (after run_replaced) |}].
Proof.
  destruct (timers_leave_only_by_firing
              (Settle 0 (Fulfilled (OutputsData run_in_progress)))
              (after (hydrated_requiring ++ [Tick 500])) (after run_replaced))
    as [kept [added [Ht [Hkept Hadded]]]]; [vm_compute; reflexivity|].
  exists kept, added. split; [exact Ht|].
  destruct Hkept as [Hk|[n [Hev _]]]; [|discriminate Hev].
  split; [exact Hk|].
  destruct Hadded as [[Ha _]|[Ha _]]; [|exact Ha].
  exfalso. rewrite Hk, Ha, app_nil_r in Ht.
  apply (f_equal (@List.length Timer)) in Ht. vm_compute in Ht. discriminate Ht.
Defined.

(** The open run is queued and its timer is pending: a second call of
    [pollRunStatus], then the function it returned. *)
Lemma cleanup_witness :
  fresh_ids (after hydrated_queued)
  /\ exists c,
       fst (pollRunStatus (state (after hydrated_queued)) (after hydrated_queued))
       = inr (Some c)
       /\ List.length
            (timers (run (pollRunStatus (state (after hydrated_queued)))
                       (after hydrated_queued))) = 2
       /\ timers (run (run_cleanup c)
                    (run (pollRunStatus (state (after hydrated_queued)))
                       (after hydrated_queued)))
          = timers (after hydrated_queued).
Proof.
  assert (Hreach : reachable (after hydrated_queued)).
  { exists hydrated_queued. vm_compute. reflexivity. }
  pose proof (proj1 pollRunStatus_cleanup_clears_its_own_timer _ Hreach) as Hfresh.
  split; [exact Hfresh|].
  apply (proj1 (proj2 pollRunStatus_cleanup_clears_its_own_timer)
           (state (after hydrated_queued)) (after hydrated_queued) Hfresh).
  reflexivity.
Defined.

(** The first timer of the sample run, set for the run that required an
    action, fires after [currentRun] has been replaced. *)
Lemma fired_timer_witness :
  reachable (after (run_replaced ++ [Tick 1500]))
  /\ exists r,
       currentRun (timer_env {| timeoutId := 0; due := 2000;
                                timer_env := state (after hydrated_requiring) |})
       = Some r
       /\ status r = "requires_action"
       /\ option_map status (currentRun (state (after (run_replaced ++ [Tick 1500]))))
          = Some "in_progress"
       /\ exists w',
            step (Fire 0) (after (run_replaced ++ [Tick 1500])) = Some w'
            /\ requests w' = [GetRun (run_id r)].
Proof.
  assert (Hreach : reachable (after (run_replaced ++ [Tick 1500]))).
  { exists (run_replaced ++ [Tick 1500]). vm_compute. reflexivity. }
  split; [exact Hreach|].
  destruct (fired_timer_polls_the_run_it_was_set_for
              (after (run_replaced ++ [Tick 1500])) 0
              {| timeoutId := 0; due := 2000;
                 timer_env := state (after hydrated_requiring) |} Hreach)
    as [r [Hcur [_ [_ Hfire]]]]; [vm_compute; reflexivity|].
  exists r. split; [exact Hcur|].
  injection Hcur as <-.
  split; [reflexivity|]. split; [vm_compute; reflexivity|].
  destruct Hfire as [w' [Hstep [_ [Hp _]]]]; [vm_compute; discriminate|].
  exists w'. split; [exact Hstep|].
  unfold requests. rewrite Hp. vm_compute. reflexivity.
Defined.

(** Two messages in order are left in order. *)
Lemma sorting_witness :
  ascending [message_early; message_late]
  /\ sort_by_created_at [message_early; message_late] = [message_early; message_late].
Proof.
  assert (H : ascending [message_early; message_late]).
  { unfold ascending. repeat constructor. cbn. lia. }
  split; [exact H|].
  exact (proj1 (proj2 (proj2 (sorting_keeps_every_message
                                [message_early; message_late]))) H).
Defined.

(** The first request of hydration fails: the open run is requested next. *)
Lemma rejected_request_witness :
  exists w',
    step (Settle 0 (Rejected (AxiosError "Network Error"))) mount = Some w'
    /\ errors w' = [AxiosError "Network Error"]
    /\ timers w' = []
    /\ state w' = initialState
    /\ requests w' = [GetRuns].
Proof.
  destruct (rejected_request_is_logged_and_not_retried mount 0
              {| request := GetMessages; env := initialState; chain := Hydrating |}
              (AxiosError "Network Error") eq_refl)
    as [w' [Hstep [He [Ht [_ [Hs Hp]]]]]].
  exists w'. repeat apply conj; try assumption.
  unfold requests. rewrite Hp. reflexivity.
Defined.

(** The open run requires a zoom call that completes: nothing is logged. *)
Lemma nothing_logged_witness :
  nothing_fails (Settle 0 (Fulfilled (RunsData (Some (run_requiring [zoom_call])))))
  /\ errors (after hydrated_requiring) = [].
Proof.
  assert (H : nothing_fails
                (Settle 0 (Fulfilled (RunsData (Some (run_requiring [zoom_call])))))).
  { cbn. repeat constructor. }
  split; [exact H|].
  assert (Hstep : step (Settle 0 (Fulfilled (RunsData (Some (run_requiring [zoom_call])))))
                    (after (firstn 1 hydrated_requiring))
                  = Some (after hydrated_requiring))
    by (vm_compute; reflexivity).
  exact (nothing_is_logged_unless_something_fails _ _ _ Hstep H).
Defined.

(** The answer to the submission of the sample run brings it in progress. *)
Lemma submission_answer_witness :
  exists w',
    step (Settle 0 (Fulfilled (OutputsData run_in_progress))) (after hydrated_requiring)
    = Some w'
    /\ currentRun (state w') = Some run_in_progress
    /\ pending w' = []
    /\ List.length (timers w') = 2.
Proof.
  destruct (submission_answer_stores_the_run (after hydrated_requiring) 0
              {| request :=
                   PostOutputs "run_1"
                     [{| tool_call_id := "call_1";
                         output := "Map mapZoomLevel level set successfully." |}];
                 env := initialState; chain := Standalone |}
              run_in_progress)
    as [w' [Hstep [Hs [Hp [_ Ht]]]]]; try (vm_compute; reflexivity).
  exists w'. split; [exact Hstep|].
  split; [rewrite Hs; reflexivity|]. split; [rewrite Hp; reflexivity|].
  rewrite Ht. vm_compute. reflexivity.
Defined.

(** Hydration finds a completed run. *)
Lemma ended_open_run_witness :
  exists w',
    step (Settle 0 (Fulfilled (RunsData (Some run_completed))))
      (after (firstn 1 hydrated_queued)) = Some w'
    /\ currentRun (state w') = None
    /\ loading (state w') = false
    /\ timers w' = [].
Proof.
  destruct (ended_open_run_is_ignored (after (firstn 1 hydrated_queued)) 0
              {| request := GetRuns; env := initialState; chain := Hydrating |}
              (Some run_completed))
    as [w' [Hstep [Hs [_ [Ht _]]]]]; try (vm_compute; reflexivity).
  exists w'. split; [exact Hstep|].
  rewrite Hs, Ht. repeat apply conj; reflexivity.
Defined.

(** Hydration has found one message and no run; the user types "Paris" and a
    whole round follows, at the end of which the server returns both
    messages. *)
Lemma round_witness :
  exists w',
    exec (round message_early run_queued run_completed [message_late; message_early])
      (after (firstn 3 prompt_accepted)) = Some w'
    /\ messages (state w') = [message_early; message_late]
    /\ input_enabled (state w') = true
    /\ pending w' = []
    /\ timers w' = [].
Proof.
  destruct (round_shows_the_fetched_messages (after (firstn 3 prompt_accepted))
              message_early run_queued run_completed [message_late; message_early])
    as [w' [Hexec [Hm [_ [Hi [_ [Hp [Ht _]]]]]]]]; try (vm_compute; reflexivity).
  exists w'. repeat apply conj; assumption.
Defined.

(** Hydration is over; a prompt is accepted, the run is polled and the poll
    is answered: the skeleton has not come back. *)
Lemma skeleton_witness :
  exists w w',
    exec (firstn 2 prompt_accepted) mount = Some w
    /\ loading (state w) = false
    /\ exec (skipn 2 run_ended) w = Some w'
    /\ loading (state w') = false.
Proof.
  exists (after (firstn 2 prompt_accepted)), (after run_ended).
  assert (H1 : exec (firstn 2 prompt_accepted) mount
               = Some (after (firstn 2 prompt_accepted))) by (vm_compute; reflexivity).
  assert (H2 : loading (state (after (firstn 2 prompt_accepted))) = false)
    by (vm_compute; reflexivity).
  assert (H3 : exec (skipn 2 run_ended) (after (firstn 2 prompt_accepted))
               = Some (after run_ended)) by (vm_compute; reflexivity).
  split; [exact H1|]. split; [exact H2|]. split; [exact H3|].
  exact (skeleton_never_returns _ _ _ H3 H2).
Defined.

(** The user types "Paris" and presses Enter twice; both prompts are
    accepted.  After the first answer the chat shows the first message, after
    the second only the second. *)
Lemma second_prompt_witness :
  exists w2 w3 w4,
    exec [Enter; Enter] (after prompt_typed) = Some w2
    /\ map request (pending w2) = [PostMessage "Paris"; PostMessage ""]
    /\ step (Settle 0 (Fulfilled (MessageData message_early run_queued))) w2 = Some w3
    /\ messages (state w3) = [message_early]
    /\ step (Settle 0 (Fulfilled (MessageData message_late run_in_progress))) w3 = Some w4
    /\ messages (state w4) = [message_late].
Proof.
  destruct (second_prompt_replaces_the_first (after prompt_typed)
              message_early message_late run_queued run_in_progress)
    as [w2 [w3 [w4 [H12 [Hp [H3 [Hm3 [_ [H4 [Hm4 _]]]]]]]]]];
    [vm_compute; reflexivity|].
  exists w2, w3, w4.
  split; [exact H12|]. split; [rewrite Hp; vm_compute; reflexivity|].
  split; [exact H3|]. split; [rewrite Hm3; vm_compute; reflexivity|].
  split; [exact H4|]. rewrite Hm4. vm_compute. reflexivity.
Defined.
